(** * FTP RAR Downloader: the protocol client and the archive extractor

    A shallow embedding of [main.py]: [FTPClient.connect], [FTPClient.close],
    [FTPClient.listdir], [FTPClient.download_file] and [App._extract_rar],
    together with the Python builtins and the [pathlib] operations they call.

    Conventions.
    - A Python [str] is a Rocq [string], one [ascii] per code point, so the
      model covers the code points U+0000 to U+00FF; the builtins of module
      [Py] follow CPython on that range.
    - A Python [int] is a [Z], a [bytes] value a [list byte].
    - A call that may raise returns a [result]; state a method mutates is
      passed in and returned.
    - The FTP server, the socket layer and the archive backend are outside the
      program: their replies are arguments of the model.
    - Opening the local file of a download and opening the archive are taken
      to succeed; the archive is the list of its members.
    - The loop of [_extract_rar] is given against any operating system
      ([App.extract_member_os]: what [pathlib], [shutil] and [rarfile] answer
      are the fields of [App.OS]) and on a file system of plain files and
      directories where nothing is refused ([App.extract_member]); the
      second is the first at [App.posix_os].
    - The handlers of the tree read the values of a row as the widget hands
      them back, an integer for every text that [int] accepts. *)

From Stdlib Require Import ZArith Ascii Bool Sorted Permutation.
From Stdlib.Strings Require Import Byte.
From stdpp Require Import base option list strings gmap sorting.

#[local] Open Scope Z_scope.

#[global] Instance byte_eq_dec : EqDecision byte := Byte.byte_eq_dec.

(** ** Exceptions and results *)

(** The exception classes the program can meet.  [UnsafePath] is the plain
    [Exception] that [_extract_rar] raises, with the member name of its
    message. *)
Inductive PyExc : Type :=
| AssertionError
| ValueError
| AttributeError
| error_perm
| error_temp
| OSError_
| FileNotFoundError
| FileExistsError
| NotADirectoryError
| IsADirectoryError
| BackendError
| TypeError
| UnsafePath (member : string).

Inductive result (A : Type) : Type :=
| Ok (a : A)
| Raise (e : PyExc).
Arguments Ok {A} a.
Arguments Raise {A} e.

Definition rbind {A B} (r : result A) (k : A -> result B) : result B :=
  match r with
  | Ok a => k a
  | Raise e => Raise e
  end.

#[global] Instance result_bind : MBind result := fun _ _ k r => rbind r k.
#[global] Instance result_ret : MRet result := fun _ a => Ok a.
#[global] Instance result_fmap : FMap result := fun _ _ f r => rbind r (fun a => Ok (f a)).

(** A comprehension or loop that builds a list and stops at the first
    exception. *)
Fixpoint collect {A B} (f : A -> result B) (l : list A) : result (list B) :=
  match l with
  | [] => Ok []
  | a :: l' => b ← f a; bs ← collect f l'; Ok (b :: bs)
  end.

(** ** Python builtins on [str] *)

Module Py.

Definition code (c : ascii) : N := N_of_ascii c.

Definition between (lo hi : N) (c : ascii) : bool :=
  ((lo <=? code c) && (code c <=? hi))%N.

(** [str.isspace] for one character: TAB..CR, FS..US, SPACE, NEL, NBSP. *)
Definition isspace (c : ascii) : bool :=
  between 9 13 c || between 28 32 c || (code c =? 133)%N || (code c =? 160)%N.

Definition is_ascii_digit (c : ascii) : bool := between 48 57 c.

(** [str.isdigit] for one character: the ASCII digits and the superscripts
    two, three and one. *)
Definition isdigit_char (c : ascii) : bool :=
  is_ascii_digit c || (code c =? 178)%N || (code c =? 179)%N || (code c =? 185)%N.

Definition chars (s : string) : list ascii := String.list_ascii_of_string s.

(** [s.isdigit()]: at least one character, and all of them digits. *)
Definition isdigit (s : string) : bool :=
  negb (String.eqb s "") && forallb isdigit_char (chars s).

(** [s.lower()]: A..Z and the capital letters of U+00C0..U+00DE (the
    multiplication sign U+00D7 apart) move up by 32. *)
Definition lower_char (c : ascii) : ascii :=
  if between 65 90 c || (between 192 222 c && negb (code c =? 215)%N)
  then ascii_of_N (code c + 32) else c.

Fixpoint lower (s : string) : string :=
  match s with
  | EmptyString => EmptyString
  | String c s' => String (lower_char c) (lower s')
  end.

(** [s.startswith(p)]. *)
Definition startswith (s p : string) : bool := String.prefix p s.

(** [s.lstrip(c)] for a one-character set. *)
Fixpoint lstrip_char (c : ascii) (s : string) : string :=
  match s with
  | EmptyString => EmptyString
  | String a s' => if Ascii.eqb a c then lstrip_char c s' else s
  end.

(** [s.split(maxsplit=k)] with no separator, as CPython scans it: [w] is the
    word being read, [k] the number of splits still allowed.  Once no split
    is left, the rest of the line from its first non-blank character is one
    last word, trailing blanks included. *)
Fixpoint split_go (k : nat) (w : option string) (s : string) : list string :=
  match s with
  | EmptyString => match w with Some x => [x] | None => [] end
  | String c s' =>
      if isspace c then
        match w with
        | Some x => x :: split_go k None s'
        | None => split_go k None s'
        end
      else
        match w with
        | Some x => split_go k (Some (x +:+ String c EmptyString)) s'
        | None =>
            match k with
            | O => [String c s']
            | S k' => split_go k' (Some (String c EmptyString)) s'
            end
        end
  end.

Definition split (maxsplit : nat) (s : string) : list string :=
  split_go maxsplit None s.

(** [s.split(sep)] for a one-character separator: every separator cuts. *)
Fixpoint split_on (sep : ascii) (s : string) : list string :=
  match s with
  | EmptyString => [EmptyString]
  | String c s' =>
      if Ascii.eqb c sep then EmptyString :: split_on sep s'
      else match split_on sep s' with
           | [] => [String c EmptyString]
           | w :: ws => String c w :: ws
           end
  end.

(** [sep.join(l)]. *)
Definition join (sep : string) (l : list string) : string := String.concat sep l.

(** The blanks [int] skips at both ends of its argument: the C blanks
    TAB..CR and SPACE, and the blanks above U+007F. *)
Definition int_blank (c : ascii) : bool :=
  between 9 13 c || (code c =? 32)%N || (code c =? 133)%N || (code c =? 160)%N.

Fixpoint lstrip (s : string) : string :=
  match s with
  | EmptyString => EmptyString
  | String c s' => if int_blank c then lstrip s' else s
  end.

Fixpoint rstrip (s : string) : string :=
  match s with
  | EmptyString => EmptyString
  | String c s' =>
      match rstrip s' with
      | EmptyString => if int_blank c then EmptyString else String c EmptyString
      | r => String c r
      end
  end.

Definition strip (s : string) : string := rstrip (lstrip s).

Definition digit_val (c : ascii) : Z := Z.of_N (code c) - 48.

(** The digits of a base-10 literal, underscores removed; [None] when an
    underscore is not between two digits or a character is no ASCII digit.
    [prev] tells whether the previous character was a digit. *)
Fixpoint int_digits (prev : bool) (l : list ascii) : option (list Z) :=
  match l with
  | [] => if prev then Some [] else None
  | c :: l' =>
      if is_ascii_digit c then
        ds ← int_digits true l'; Some (digit_val c :: ds)
      else if Ascii.eqb c "_" && prev then
        match l' with
        | d :: _ => if is_ascii_digit d then int_digits false l' else None
        | [] => None
        end
      else None
  end.

Definition int_max_str_digits : nat := 4300.

Definition digits_value (ds : list Z) : Z :=
  fold_left (fun acc d => 10 * acc + d) ds 0.

(** The value of a string of decimal digits. *)
Definition decimal (s : string) : Z := digits_value (map digit_val (chars s)).

(** [int(s)] on a string: blanks skipped at both ends, an optional sign,
    decimal digits with single underscores between them, at most
    [int_max_str_digits] digits. *)
Definition int (s : string) : result Z :=
  let body := chars (strip s) in
  let '(neg, ds) :=
    match body with
    | c :: l' =>
        if Ascii.eqb c "-" then (true, l')
        else if Ascii.eqb c "+" then (false, l')
        else (false, body)
    | [] => (false, body)
    end in
  match ds with
  | [] => Raise ValueError
  | _ :: _ =>
      match int_digits false ds with
      | Some vs =>
          if (int_max_str_digits <? length vs)%nat then Raise ValueError
          else Ok (if neg then - digits_value vs else digits_value vs)
      | None => Raise ValueError
      end
  end.

(** [s.endswith(suffix)]. *)
Fixpoint endswith (s suffix : string) : bool :=
  if String.eqb s suffix then true
  else match s with
       | EmptyString => false
       | String _ s' => endswith s' suffix
       end.

(** [s.replace(old, new)] for one-character strings. *)
Fixpoint replace_char (old new : ascii) (s : string) : string :=
  match s with
  | EmptyString => EmptyString
  | String a s' =>
      String (if Ascii.eqb a old then new else a) (replace_char old new s')
  end.

(** [s.rstrip(c)] for a one-character set. *)
Fixpoint rstrip_char (c : ascii) (s : string) : string :=
  match s with
  | EmptyString => EmptyString
  | String a s' =>
      match rstrip_char c s' with
      | EmptyString => if Ascii.eqb a c then EmptyString else String a EmptyString
      | r => String a r
      end
  end.

End Py.

(** ** The FTP client *)

Module FTPClient.

(** One call on the wire, as the server end sees it. *)
Inductive Event : Type :=
| EvQuit (conn : nat)
| EvClose (conn : nat)
| EvConnect (conn : nat) (host : string) (port timeout : Z)
| EvLogin (conn : nat) (user passwd : string)
| EvGetwelcome (conn : nat)
| EvVoidcmd (conn : nat) (cmd : string)
| EvPwd (conn : nat)
| EvMlsd (conn : nat) (path : string)
| EvRetrlines (conn : nat) (cmd : string)
| EvSize (conn : nat) (filename : string)
| EvRetrbinary (conn : nat) (cmd : string) (blocksize : Z) (rest : option Z).

Definition conn_of (ev : Event) : nat :=
  match ev with
  | EvQuit c | EvClose c | EvConnect c _ _ _ | EvLogin c _ _ | EvGetwelcome c
  | EvVoidcmd c _ | EvPwd c | EvMlsd c _ | EvRetrlines c _ | EvSize c _
  | EvRetrbinary c _ _ _ => c
  end.

(** What [ftplib.FTP.retrbinary] meets: the transfer command is accepted or
    refused, [conn.recv] then returns blocks until an empty one (end of
    file) or an exception, and [voidresp] closes the transfer. *)
Record RetrReply : Type := {
  transfercmd : option PyExc;
  recvs : list (result (list byte));
  voidresp : option PyExc
}.

(** An [ftplib.FTP] object: its identity and what each of its calls that
    the client uses answers ([None] is a normal return of a call made for
    its effect). *)
Record FTP : Type := {
  conn_id : nat;
  connect_reply : option PyExc;
  login_reply : option PyExc;
  voidcmd_reply : string -> option PyExc;
  pwd_reply : result string;
  quit_reply : option PyExc;
  mlsd : string -> result (list (string * gmap string string));
  retrlines : string -> result (list string);
  size_reply : string -> result (option Z);
  retrbinary : string -> option Z -> RetrReply
}.

(** [self.ftp] and [self.current_path]. *)
Record Client : Type := {
  ftp : option FTP;
  current_path : string
}.

(** [__init__]. *)
Definition init : Client := {| ftp := None; current_path := "/" |}.

(** [close]: QUIT, and when that raises the socket is closed; whatever
    happens the handle is dropped. *)
Definition close (self : Client) : list Event * Client :=
  match ftp self with
  | Some c =>
      let evs :=
        match quit_reply c with
        | None => [EvQuit (conn_id c)]
        | Some _ => [EvQuit (conn_id c); EvClose (conn_id c)]
        end in
      (evs, {| ftp := None; current_path := current_path self |})
  | None => ([], self)
  end.

(** [connect]; [new] is the object [ftplib.FTP()] returns. *)
Definition connect (self : Client) (new : FTP) (host : string) (port : Z)
    (user password : string) (timeout : Z)
    : list Event * Client * result bool :=
  let '(ev0, self) := close self in
  let c := conn_id new in
  let ev1 := ev0 ++ [EvConnect c host port timeout] in
  match connect_reply new with
  | Some e => (ev1, self, Raise e)
  | None =>
      let ev2 := ev1 ++ [EvLogin c user password] in
      match login_reply new with
      | Some e => (ev2, self, Raise e)
      | None =>
          let ev3 := ev2 ++ [EvGetwelcome c; EvVoidcmd c "TYPE I"] in
          match voidcmd_reply new "TYPE I" with
          | Some e => (ev3, self, Raise e)
          | None =>
              let cur := match pwd_reply new with
                         | Ok p => p
                         | Raise _ => "/"
                         end in
              (ev3 ++ [EvPwd c],
               {| ftp := Some new; current_path := cur |}, Ok true)
          end
      end
  end.

(** *** Directory listings *)

(** A listing entry: the dictionary with keys [name], [type], [size] and
    [modify]. *)
Record Entry : Type := {
  name : string;
  type : string;
  size : Z;
  modify : string
}.

#[global] Instance Entry_eq_dec : EqDecision Entry.
Proof. solve_decision. Defined.

(** The entry of one MLSD record [(name, facts)]. *)
Definition mlsd_entry (rec : string * gmap string string) : result Entry :=
  let '(nm, facts) := rec in
  sz ← match facts !! "size" with
       | Some s => if String.eqb s "" then Ok 0 else Py.int s
       | None => Ok 0
       end;
  Ok {| name := nm;
        type := default "file" (facts !! "type");
        size := sz;
        modify := default "" (facts !! "modify") |}.

(** The entry of one line of a LIST reply. *)
Definition list_entry (line : string) : result Entry :=
  let parts := Py.split 8 line in
  if (length parts <? 9)%nat then
    Ok {| name := match parts with [] => line | _ :: _ => List.last parts "" end;
          type := "file"; size := 0; modify := "" |}
  else
    match parts with
    | [mode; _; _; _; sz; month; day; time_or_year; nm] =>
        let is_dir := Py.startswith mode "d" in
        n ← (if Py.isdigit sz then Py.int sz else Ok 0);
        Ok {| name := nm;
              type := if is_dir then "dir" else "file";
              size := n;
              modify := day +:+ " " +:+ month +:+ " " +:+ time_or_year |}
    | _ => Raise ValueError
    end.

(** [list.sort(key=...)]: a stable sort on string keys; an element goes in
    front of the first one whose key is not smaller. *)
Fixpoint insert_by {A} (key : A -> string) (x : A) (l : list A) : list A :=
  match l with
  | [] => [x]
  | y :: l' =>
      if String.leb (key x) (key y) then x :: y :: l'
      else y :: insert_by key x l'
  end.

Fixpoint sort_by {A} (key : A -> string) (l : list A) : list A :=
  match l with
  | [] => []
  | x :: l' => insert_by key x (sort_by key l')
  end.

Definition name_key (e : Entry) : string := Py.lower (name e).

Definition up_entry : Entry :=
  {| name := ".."; type := "up"; size := 0; modify := "" |}.

(** The end of [listdir]: drop ".", split into directories and the rest,
    sort both, put the "go up" entry in front. *)
Definition arrange (entries : list Entry) : list Entry :=
  let entries := filter (fun e => name e <> ".") entries in
  let dirs := filter (fun e => type e = "dir") entries in
  let files := filter (fun e => type e <> "dir") entries in
  up_entry :: sort_by name_key dirs ++ sort_by name_key files.

(** The exceptions of [except (ftplib.error_perm, AttributeError)]. *)
Definition falls_back (e : PyExc) : bool :=
  match e with
  | error_perm | AttributeError => true
  | _ => false
  end.

(** [listdir]. *)
Definition listdir (self : Client) (path : option string)
    : list Event * result (list Entry) :=
  match ftp self with
  | None => ([], Raise AssertionError)
  | Some c =>
      let path := default (current_path self) path in
      let ev1 := [EvMlsd (conn_id c) path] in
      match mlsd c path with
      | Ok records => (ev1, arrange <$> collect mlsd_entry records)
      | Raise e =>
          if falls_back e then
            let cmd := "LIST " +:+ path in
            let ev2 := ev1 ++ [EvRetrlines (conn_id c) cmd] in
            match retrlines c cmd with
            | Ok lines => (ev2, arrange <$> collect list_entry lines)
            | Raise e' => (ev2, Raise e')
            end
          else (ev1, Raise e)
      end
  end.

(** *** Downloads *)

(** The variables the [_writer] closure works on: the open local file, the
    counter, and the calls made to [progress_cb] so far. *)
Record Writer : Type := {
  f : list byte;
  bytes_done : Z;
  progress : list (Z * option Z)
}.

Definition _writer (progress_cb : bool) (total_size : option Z)
    (w : Writer) (block : list byte) : Writer :=
  let done := bytes_done w + Z.of_nat (length block) in
  {| f := f w ++ block;
     bytes_done := done;
     progress := if progress_cb then progress w ++ [(done, total_size)]
                 else progress w |}.

(** The receive loop of [retrbinary]: every non-empty block goes to the
    callback; an empty block ends the transfer. *)
Fixpoint recv_loop (callback : Writer -> list byte -> Writer)
    (rs : list (result (list byte))) (w : Writer) : Writer * option PyExc :=
  match rs with
  | [] => (w, None)
  | Raise e :: _ => (w, Some e)
  | Ok [] :: _ => (w, None)
  | Ok data :: rs' => recv_loop callback rs' (callback w data)
  end.

Definition run_retrbinary (reply : RetrReply)
    (callback : Writer -> list byte -> Writer) (w : Writer)
    : Writer * option PyExc :=
  match transfercmd reply with
  | Some e => (w, Some e)
  | None =>
      match recv_loop callback (recvs reply) w with
      | (w', Some e) => (w', Some e)
      | (w', None) => (w', voidresp reply)
      end
  end.

(** The blocks a reply delivers to the callback. *)
Fixpoint delivered (rs : list (result (list byte))) : list (list byte) :=
  match rs with
  | Ok (b :: data) :: rs' => (b :: data) :: delivered rs'
  | _ => []
  end.

Definition received (reply : RetrReply) : list (list byte) :=
  match transfercmd reply with
  | Some _ => []
  | None => delivered (recvs reply)
  end.

Record Download : Type := {
  events : list Event;
  local_file : option (list byte);
  calls : list (Z * option Z);
  outcome : result unit
}.

(** [download_file]; [local] is the content of [local_path] before the
    call ([None]: no such file), [progress_cb] tells whether a callback was
    given. *)
Definition download_file (self : Client) (local : option (list byte))
    (remote_path : string) (progress_cb : bool) (blocksize rest : Z)
    : Download :=
  match ftp self with
  | None => {| events := []; local_file := local; calls := [];
               outcome := Raise AssertionError |}
  | Some c =>
      let total_size := match size_reply c remote_path with
                        | Ok n => n
                        | Raise _ => None
                        end in
      let opened := if 0 <? rest then default [] local else [] in
      let w0 := {| f := opened; bytes_done := rest; progress := [] |} in
      let cmd := "RETR " +:+ remote_path in
      let rest_arg := if 0 <? rest then Some rest else None in
      let '(w, err) := run_retrbinary (retrbinary c cmd rest_arg)
                         (_writer progress_cb total_size) w0 in
      {| events := [EvSize (conn_id c) remote_path;
                    EvRetrbinary (conn_id c) cmd blocksize rest_arg];
         local_file := Some (f w);
         calls := progress w;
         outcome := match err with Some e => Raise e | None => Ok tt end |}
  end.

(** [cwd]; the server's answers to CWD and to the PWD after it depend on the
    path asked for. *)
Definition cwd (self : Client) (cwd_reply : string -> option PyExc)
    (pwd_after : string -> result string) (path : string)
    : Client * option PyExc :=
  match ftp self with
  | None => (self, Some AssertionError)
  | Some _ =>
      match cwd_reply path with
      | Some e => (self, Some e)
      | None =>
          match pwd_after path with
          | Ok p => ({| ftp := ftp self; current_path := p |}, None)
          | Raise e => (self, Some e)
          end
      end
  end.

End FTPClient.

(** ** Paths and the local file system *)

(** [pathlib] on POSIX, and the [os] calls behind it.  A [Path] value is the
    list of the parts of an absolute path below the root; an extraction
    directory given relative to the working directory is that list with the
    working directory's parts in front.  The file system holds regular files
    and directories and no symbolic links, so [resolve] only folds the ".."
    parts. *)
Module PosixPath.

Abbreviation Path := (list string).

(** The parts [PurePosixPath(s)] keeps: empty parts and "." are dropped. *)
Definition parse_parts (s : string) : Path :=
  filter (fun c => c <> "" /\ c <> ".") (Py.split_on "/" s).

(** The root of [PurePosixPath(s)]: exactly two leading slashes are kept. *)
Definition parse_root (s : string) : string :=
  if Py.startswith s "///" then "/"
  else if Py.startswith s "//" then "//"
  else if Py.startswith s "/" then "/"
  else "".

(** [Path(s).as_posix()]. *)
Definition as_posix (s : string) : string :=
  match parse_root s, parse_parts s with
  | EmptyString, [] => "."
  | r, ps => r +:+ Py.join "/" ps
  end.

(** [p / s]: an absolute [s] replaces [p]. *)
Definition joinpath (p : Path) (s : string) : Path :=
  if Py.startswith s "/" then parse_parts s else p ++ parse_parts s.

(** [p.parent]; the root is its own parent. *)
Definition parent (p : Path) : Path := removelast p.

(** [str(p)]. *)
Definition str (p : Path) : string := "/" +:+ Py.join "/" p.

Definition step (cur : Path) (c : string) : Path :=
  if decide (c = "..") then removelast cur else cur ++ [c].

(** [p.resolve()], not strict. *)
Definition resolve (p : Path) : Path := fold_left step p [].

Inductive Node : Type :=
| File (data : list byte)
| Directory.

#[global] Instance Node_eq_dec : EqDecision Node.
Proof. solve_decision. Defined.

(** The file system: the node at each resolved path; the root is always a
    directory. *)
Abbreviation FS := (gmap (list string) Node).

Definition node_at (fs : FS) (q : Path) : option Node :=
  match q with
  | [] => Some Directory
  | _ :: _ => fs !! q
  end.

(** Path lookup by the kernel: every part is taken from a directory that
    exists; the last part need not exist. *)
Fixpoint walk_from (fs : FS) (cur : Path) (p : Path) : result Path :=
  match p with
  | [] => Ok cur
  | c :: p' =>
      match node_at fs cur with
      | Some Directory => walk_from fs (step cur c) p'
      | Some (File _) => Raise NotADirectoryError
      | None => Raise FileNotFoundError
      end
  end.

Definition walk (fs : FS) (p : Path) : result Path := walk_from fs [] p.

Definition stat (fs : FS) (p : Path) : result Node :=
  q ← walk fs p;
  match node_at fs q with
  | Some n => Ok n
  | None => Raise FileNotFoundError
  end.

(** [p.exists()], [p.is_file()], [p.is_dir()]. *)
Definition exists_ (fs : FS) (p : Path) : bool :=
  match stat fs p with Ok _ => true | Raise _ => false end.

Definition is_file (fs : FS) (p : Path) : bool :=
  match stat fs p with Ok (File _) => true | _ => false end.

Definition is_dir (fs : FS) (p : Path) : bool :=
  match stat fs p with Ok Directory => true | _ => false end.

(** [os.mkdir(p)]. *)
Definition os_mkdir (fs : FS) (p : Path) : FS * option PyExc :=
  match walk fs p with
  | Raise e => (fs, Some e)
  | Ok q =>
      match node_at fs q with
      | Some _ => (fs, Some FileExistsError)
      | None => (<[q := Directory]> fs, None)
      end
  end.

(** [p.mkdir(parents=False, exist_ok=True)]. *)
Definition mkdir_exist_ok (fs : FS) (p : Path) : FS * option PyExc :=
  match os_mkdir fs p with
  | (fs', None) => (fs', None)
  | (_, Some FileNotFoundError) => (fs, Some FileNotFoundError)
  | (_, Some e) => if is_dir fs p then (fs, None) else (fs, Some e)
  end.

(** [p.mkdir(parents=True, exist_ok=True)] as [pathlib] runs it, on the
    reversed parts of [p]: try [os.mkdir]; when a parent is missing make
    the parent this same way and try once more. *)
Fixpoint mkdir_rev (fs : FS) (rp : list string) : FS * option PyExc :=
  match os_mkdir fs (rev rp) with
  | (fs', None) => (fs', None)
  | (_, Some FileNotFoundError) =>
      match rp with
      | [] => (fs, Some FileNotFoundError)
      | _ :: rp' =>
          match mkdir_rev fs rp' with
          | (fs1, None) => mkdir_exist_ok fs1 (rev rp)
          | (fs1, Some e) => (fs1, Some e)
          end
      end
  | (_, Some e) => if is_dir fs (rev rp) then (fs, None) else (fs, Some e)
  end.

Definition mkdir_parents (fs : FS) (p : Path) : FS * option PyExc :=
  mkdir_rev fs (rev p).

(** [p.unlink()]; this file system refuses no removal. *)
Definition unlink (fs : FS) (p : Path) : FS * option PyExc :=
  match walk fs p with
  | Raise e => (fs, Some e)
  | Ok q =>
      match node_at fs q with
      | Some (File _) => (delete q fs, None)
      | Some Directory => (fs, Some IsADirectoryError)
      | None => (fs, Some FileNotFoundError)
      end
  end.

(** [shutil.rmtree(p)]: the directory and all below it go; nothing is
    refused. *)
Definition rmtree (fs : FS) (p : Path) : FS * option PyExc :=
  match walk fs p with
  | Raise e => (fs, Some e)
  | Ok q =>
      match node_at fs q with
      | Some Directory =>
          (filter (fun kv => ~ q `prefix_of` kv.1) fs, None)
      | Some (File _) => (fs, Some NotADirectoryError)
      | None => (fs, Some FileNotFoundError)
      end
  end.

End PosixPath.

(** ** [os.path] on POSIX *)

Module OsPath.

(** [p[:p.rfind("/") + 1]]: the text up to and with the last slash. *)
Fixpoint upto_last_sep (p : string) : string :=
  match p with
  | EmptyString => EmptyString
  | String c p' =>
      match upto_last_sep p' with
      | EmptyString => if Ascii.eqb c "/" then String c EmptyString else EmptyString
      | h => String c h
      end
  end.

(** [head == "/" * len(head)]. *)
Fixpoint all_sep (s : string) : bool :=
  match s with
  | EmptyString => true
  | String c s' => Ascii.eqb c "/" && all_sep s'
  end.

(** [os.path.dirname(p)]. *)
Definition dirname (p : string) : string :=
  let head := upto_last_sep p in
  if negb (String.eqb head "") && negb (all_sep head)
  then Py.rstrip_char "/" head else head.

(** [os.path.join(a, b)]. *)
Definition join (a b : string) : string :=
  if Py.startswith b "/" then b
  else if String.eqb a "" || Py.endswith a "/" then a +:+ b
  else a +:+ "/" +:+ b.

End OsPath.

(** ** The extractor *)

Module App.
Import PosixPath.

(** A [RarInfo]: [m.filename], [m.is_dir()], and the bytes of the member. *)
Record Member : Type := {
  filename : string;
  is_dir_member : bool;
  data : list byte
}.

Definition name_posix (m : Member) : string :=
  Py.lstrip_char "/" (as_posix (filename m)).

Definition target (dest_dir : Path) (m : Member) : Path :=
  joinpath dest_dir (name_posix m).

(** [target_resolved_parent] on this file system; [resolve] never raises
    here, so the handler of [FileNotFoundError] is not entered.  The guard
    with that handler, for any answer of [resolve], is [guard_os] below. *)
Definition target_resolved_parent (dest_dir : Path) (m : Member) : Path :=
  let t := target dest_dir m in
  parent (resolve (if is_dir_member m then parent t else t)).

(** The test of the traversal guard. *)
Definition guard_ok (dest_dir : Path) (m : Member) : bool :=
  Py.startswith (str (target_resolved_parent dest_dir m)) (str (resolve dest_dir)).

Section Backend.

(** [rf.extract(m, path=dest_dir)], the call into the [rarfile] library. *)
Variable rf_extract : FS -> Path -> Member -> FS * option PyExc.

(** The body of the loop of [_extract_rar] for one member, on this file
    system. *)
Definition extract_member (fs : FS) (dest_dir : Path) (overwrite : bool)
    (m : Member) : FS * option PyExc :=
  if negb (guard_ok dest_dir m) then (fs, Some (UnsafePath (filename m)))
  else if is_dir_member m then mkdir_parents fs (target dest_dir m)
  else
    match mkdir_parents fs (parent (target dest_dir m)) with
    | (fs1, Some e) => (fs1, Some e)
    | (fs1, None) =>
        let target_file := target dest_dir m in
        let fs2 :=
          if exists_ fs1 target_file && overwrite then
            if is_file fs1 target_file then (unlink fs1 target_file).1
            else (rmtree fs1 target_file).1
          else fs1 in
        if negb (exists_ fs2 target_file) || overwrite
        then rf_extract fs2 dest_dir m
        else (fs2, None)
    end.

(** [_extract_rar] on the members [rf.infolist()] returns. *)
Fixpoint _extract_rar (fs : FS) (members : list Member) (dest_dir : Path)
    (overwrite : bool) : FS * option PyExc :=
  match members with
  | [] => (fs, None)
  | m :: members' =>
      match extract_member fs dest_dir overwrite m with
      | (fs', None) => _extract_rar fs' members' dest_dir overwrite
      | (fs', Some e) => (fs', Some e)
      end
  end.

End Backend.

(** A backend that honours the member path relative to [path], as the
    comment at the call expects: parents are made, then the file is written
    at the target, over what is there. *)
Definition extract_in_place (fs : FS) (path : Path) (m : Member)
    : FS * option PyExc :=
  let t := target path m in
  match mkdir_parents fs (parent t) with
  | (fs1, Some e) => (fs1, Some e)
  | (fs1, None) =>
      match walk fs1 t with
      | Raise e => (fs1, Some e)
      | Ok q =>
          match node_at fs1 q with
          | Some Directory => (fs1, Some IsADirectoryError)
          | _ => (<[q := File (data m)]> fs1, None)
          end
      end
  end.

(** *** The extractor against any operating system *)

(** What [_extract_rar] asks of [pathlib], [shutil] and [rarfile], for a
    state [St] of the operating system.  A system with symbolic links,
    permissions or special files answers in its own way: [resolve] follows
    the links it finds, a removal can be refused. *)
Record OS (St : Type) : Type := {
  os_resolve : St -> Path -> result Path;
  os_mkdir_parents : St -> Path -> St * option PyExc;
  os_exists : St -> Path -> result bool;
  os_is_file : St -> Path -> result bool;
  os_unlink : St -> Path -> St * option PyExc;
  os_rmtree : St -> Path -> St * option PyExc;
  os_extract : St -> Path -> Member -> St * option PyExc
}.
Arguments os_resolve {St} _ _ _.
Arguments os_mkdir_parents {St} _ _ _.
Arguments os_exists {St} _ _ _.
Arguments os_is_file {St} _ _ _.
Arguments os_unlink {St} _ _ _.
Arguments os_rmtree {St} _ _ _.
Arguments os_extract {St} _ _ _ _.

Section AnySystem.
Context {St : Type} (os : OS St).

(** The test of the traversal guard, with the handler of
    [FileNotFoundError] around the first [resolve]. *)
Definition guard_os (st : St) (dest_dir : Path) (m : Member) : result bool :=
  let t := target dest_dir m in
  guard_path ←
    match os_resolve os st (if is_dir_member m then parent t else t) with
    | Ok r => Ok (parent r)
    | Raise FileNotFoundError => os_resolve os st (parent t)
    | Raise e => Raise e
    end;
  d ← os_resolve os st dest_dir;
  Ok (Py.startswith (str guard_path) (str d)).

(** The body of the loop of [_extract_rar] for one member. *)
Definition extract_member_os (st : St) (dest_dir : Path) (overwrite : bool)
    (m : Member) : St * option PyExc :=
  match guard_os st dest_dir m with
  | Raise e => (st, Some e)
  | Ok false => (st, Some (UnsafePath (filename m)))
  | Ok true =>
      if is_dir_member m then os_mkdir_parents os st (target dest_dir m)
      else
        match os_mkdir_parents os st (parent (target dest_dir m)) with
        | (st1, Some e) => (st1, Some e)
        | (st1, None) =>
            let target_file := target dest_dir m in
            match os_exists os st1 target_file with
            | Raise e => (st1, Some e)
            | Ok there =>
                let st2 :=
                  if there && overwrite then
                    match os_is_file os st1 target_file with
                    | Ok true => (os_unlink os st1 target_file).1
                    | Ok false => (os_rmtree os st1 target_file).1
                    | Raise _ => st1
                    end
                  else st1 in
                match os_exists os st2 target_file with
                | Raise e => (st2, Some e)
                | Ok still =>
                    if negb still || overwrite
                    then os_extract os st2 dest_dir m
                    else (st2, None)
                end
            end
        end
  end.

Fixpoint _extract_rar_os (st : St) (members : list Member) (dest_dir : Path)
    (overwrite : bool) : St * option PyExc :=
  match members with
  | [] => (st, None)
  | m :: members' =>
      match extract_member_os st dest_dir overwrite m with
      | (st', None) => _extract_rar_os st' members' dest_dir overwrite
      | (st', Some e) => (st', Some e)
      end
  end.

End AnySystem.

(** The file system of files and directories above, where nothing is
    refused, as such a system. *)
Definition posix_os (rf_extract : FS -> Path -> Member -> FS * option PyExc)
    : OS FS := {|
  os_resolve := fun _ p => Ok (resolve p);
  os_mkdir_parents := mkdir_parents;
  os_exists := fun fs p => Ok (exists_ fs p);
  os_is_file := fun fs p => Ok (is_file fs p);
  os_unlink := unlink;
  os_rmtree := rmtree;
  os_extract := rf_extract
|}.

(** *** The browser *)

(** The remote path of the row [name] of the listing of [cur]:
    [os.path.join(cur, name).replace("\\", "/")]. *)
Definition child_path (cur name : string) : string :=
  Py.replace_char "\" "/" (OsPath.join cur name).

(** The directory the "up" row leads to. *)
Definition up_path (cur : string) : string :=
  let parent := if String.eqb cur "/" then "/"
                else OsPath.dirname (Py.rstrip_char "/" cur) in
  if String.eqb parent "" then "/" else parent.

(** What a worker puts on [bg_queue]. *)
Inductive Msg : Type :=
| MsgListing (entries : list FTPClient.Entry)
| MsgError (e : PyExc).

(** A value of a row as [Treeview.item] hands it to the program: [ttk]
    turns every value whose text [int] accepts into that integer, and
    leaves the others as strings. *)
Inductive TkValue : Type :=
| TkStr (s : string)
| TkInt (n : Z).

(** [ttk._convert_stringval]. *)
Definition convert_stringval (s : string) : TkValue :=
  match Py.int s with
  | Ok n => TkInt n
  | Raise _ => TkStr s
  end.

(** [v == s] for a string [s]. *)
Definition tk_eq (v : TkValue) (s : string) : bool :=
  match v with
  | TkStr x => String.eqb x s
  | TkInt _ => false
  end.

(** The path the worker of [on_tree_double_click] asks the server for;
    [os.path.join] raises [TypeError] for a name that is an integer. *)
Definition click_path (cur : string) (name typ : TkValue) : result string :=
  if tk_eq typ "up" then Ok (up_path cur)
  else match name with
       | TkStr n => Ok (child_path cur n)
       | TkInt _ => Raise TypeError
       end.

(** [on_tree_double_click] with its worker; [item] is the text of the first
    two values of the focused row, the name and the type, as the widget
    holds them ([None]: no row has the focus). *)
Definition on_tree_double_click (self : FTPClient.Client)
    (cwd_reply : string -> option PyExc) (pwd_after : string -> result string)
    (item : option (string * string)) : FTPClient.Client * list Msg :=
  match item with
  | None => (self, [])
  | Some (name, typ) =>
      let name := convert_stringval name in
      let typ := convert_stringval typ in
      if tk_eq typ "dir" || tk_eq typ "up" then
        match click_path (FTPClient.current_path self) name typ with
        | Raise e => (self, [MsgError e])
        | Ok path =>
            match FTPClient.cwd self cwd_reply pwd_after path with
            | (self', Some e) => (self', [MsgError e])
            | (self', None) =>
                match FTPClient.listdir self' None with
                | (_, Ok entries) => (self', [MsgListing entries])
                | (_, Raise e) => (self', [MsgError e])
                end
            end
        end
      else (self, [])
  end.

(** What [on_tree_select] sets: the text of [selected_remote] and whether
    the download button is enabled (the label follows the text). *)
Record View : Type := {
  selected_remote : string;
  download_enabled : bool
}.

(** [on_tree_select]; [sel] is the text of the name and the type of the
    first selected row.  The widgets are set at the end, so a call that
    raises leaves them as they were. *)
Definition on_tree_select (view : View) (current_path : string)
    (sel : option (string * string)) : View * option PyExc :=
  let nothing := {| selected_remote := ""; download_enabled := false |} in
  match sel with
  | None => (nothing, None)
  | Some (name, typ) =>
      let name := convert_stringval name in
      let typ := convert_stringval typ in
      if tk_eq typ "file" then
        match name with
        | TkInt _ => (view, Some AttributeError)
        | TkStr n =>
            if Py.endswith (Py.lower n) ".rar"
            then ({| selected_remote := child_path current_path n;
                     download_enabled := true |}, None)
            else (nothing, None)
        end
      else (nothing, None)
  end.

(** The resume question of [on_download_extract]: the offset to start from
    and the local file as the download finds it; [ans] is the answer to the
    dialog ([None]: cancel).  [None] as a result: nothing is downloaded. *)
Definition resume_choice (local : option (list byte)) (ans : option bool)
    : option (Z * option (list byte)) :=
  match local with
  | None => Some (0, None)
  | Some old =>
      match ans with
      | None => None
      | Some true => Some (Z.of_nat (length old), Some old)
      | Some false => Some (0, None)
      end
  end.

(** [on_download_extract] up to the end of the download. *)
Definition start_download (self : FTPClient.Client) (local : option (list byte))
    (ans : option bool) (remote_path : string) : option FTPClient.Download :=
  match resume_choice local ans with
  | None => None
  | Some (rest, local') =>
      Some (FTPClient.download_file self local' remote_path true (64 * 1024) rest)
  end.

End App.

(** ** Vocabulary of the statements *)


(** The running totals [acc + |b1|], [acc + |b1| + |b2|], ... of a list of
    blocks. *)
Fixpoint running (acc : Z) (blocks : list (list byte)) : list Z :=
  match blocks with
  | [] => []
  | b :: bs =>
      let acc' := acc + Z.of_nat (length b) in
      acc' :: running acc' bs
  end.

(** The number of bytes in a list of blocks. *)
Definition total_len (blocks : list (list byte)) : Z :=
  Z.of_nat (length (concat blocks)).

(** A path part as [pathlib] produces it: not empty, no slash inside. *)
Definition plain_part (c : string) : Prop :=
  c <> "" /\ Forall (fun a => a <> "/"%char) (Py.chars c).

(** [p] is [d] or lies below it. *)
Definition inside (d p : list string) : Prop := d `prefix_of` p.

(** [p] is, or lies below, a sibling of [d] whose name is the name of [d]
    with more characters after it. *)
Definition lookalike (d p : list string) : Prop :=
  exists d0 c s rest, d = d0 ++ [c] /\ s <> "" /\ p = d0 ++ (c +:+ s) :: rest.

(** The text of a list of parts: a slash in front of each. *)
Fixpoint segs (p : list string) : string :=
  match p with
  | [] => ""
  | c :: p' => "/" +:+ c +:+ segs p'
  end.

(** At the state [st] the member escapes the extraction directory: what
    the guard resolves for it, the target of a file member and the parent
    directory of a directory member, comes out as a path that is not the
    resolved directory and not below it, and whose parent is no lookalike
    of the directory either. *)
Definition escapes {St} (os : App.OS St) (st : St) (dest_dir : list string)
    (m : App.Member) : Prop :=
  exists rd rt,
    App.os_resolve os st dest_dir = Ok rd /\
    App.os_resolve os st
      (if App.is_dir_member m
       then PosixPath.parent (App.target dest_dir m)
       else App.target dest_dir m) = Ok rt /\
    Forall plain_part rd /\ Forall plain_part rt /\
    ~ inside rd rt /\ ~ lookalike rd (PosixPath.parent rt).

(** Every node of the file system sits in a directory. *)
Definition well_formed (fs : gmap (list string) PosixPath.Node) : Prop :=
  map_Forall
    (fun q _ => PosixPath.node_at fs (removelast q) = Some PosixPath.Directory) fs.

(** A backend that only adds nodes, and keeps the file system well formed,
    when it runs where the parent directory of the member's target exists
    and the target itself does not. *)
Definition careful
    (rf : gmap (list string) PosixPath.Node -> list string -> App.Member ->
          gmap (list string) PosixPath.Node * option PyExc) : Prop :=
  forall fs dest_dir m fs' r,
    well_formed fs ->
    PosixPath.is_dir fs (PosixPath.parent (App.target dest_dir m)) = true ->
    PosixPath.exists_ fs (App.target dest_dir m) = false ->
    rf fs dest_dir m = (fs', r) ->
    fs ⊆ fs' /\ well_formed fs'.

(** What making the directory [p] does to the file system [fs]: nodes are
    only added, a well-formed file system stays so, and after a success the
    directory is there. *)
Definition mkdir_post (fs : gmap (list string) PosixPath.Node) (p : list string)
    (out : gmap (list string) PosixPath.Node * option PyExc) : Prop :=
  fs ⊆ out.1 /\ (well_formed fs -> well_formed out.1) /\
  (out.2 = None -> PosixPath.is_dir out.1 p = true).

(** ** Sample servers and archives *)

Module Samples.
Import FTPClient.

Definition block (n : N) : list byte := repeat "x"%byte (N.to_nat n).

(** A server that speaks MLSD and holds a 300000-byte archive. *)
Definition server : FTP := {|
  conn_id := 1;
  connect_reply := None;
  login_reply := None;
  voidcmd_reply := fun _ => None;
  pwd_reply := Ok "/pub";
  quit_reply := None;
  mlsd := fun _ =>
    Ok [(".", {[ "type" := "cdir" ]});
        ("zeta.rar", {[ "type" := "file"; "size" := "300000";
                        "modify" := "20240101120000" ]});
        ("Docs", {[ "type" := "dir" ]});
        ("alpha", {[ "type" := "dir" ]});
        ("Beta.txt", {[ "type" := "file"; "size" := "12" ]})];
  retrlines := fun _ => Raise error_perm;
  size_reply := fun _ => Ok (Some 300000);
  retrbinary := fun _ rest =>
    {| transfercmd := None;
       recvs := match rest with
                | None => [Ok (block 65536); Ok (block 65536); Ok (block 65536);
                           Ok (block 65536); Ok (block 37856); Ok []]
                | Some _ => [Ok (block 65536); Ok (block 37856); Ok []]
                end;
       voidresp := None |}
|}.

(** A server that only knows LIST. *)
Definition legacy_server : FTP := {|
  conn_id := 2;
  connect_reply := None;
  login_reply := None;
  voidcmd_reply := fun _ => None;
  pwd_reply := Ok "/pub";
  quit_reply := None;
  mlsd := fun _ => Raise error_perm;
  retrlines := fun _ =>
    Ok ["total 8";
        "-rw-r--r-- 1 ftp ftp 300000 Mar 3 10:42 zeta.rar";
        "drwxr-xr-x 2 ftp ftp 4096 Jan 15 2023 Docs";
        "drwxr-xr-x 2 ftp ftp 4096 Jan 16 2023 alpha"];
  size_reply := fun _ => Raise error_perm;
  retrbinary := fun _ _ =>
    {| transfercmd := Some error_perm; recvs := []; voidresp := None |}
|}.

(** A server whose MLSD reply has a size fact that is no number. *)
Definition odd_server : FTP := {|
  conn_id := 3;
  connect_reply := None;
  login_reply := None;
  voidcmd_reply := fun _ => None;
  pwd_reply := Ok "/";
  quit_reply := None;
  mlsd := fun _ =>
    Ok [("a.rar", {[ "type" := "file"; "size" := "10" ]});
        ("b.rar", {[ "type" := "file"; "size" := "1.5k" ]})];
  retrlines := fun _ => Ok ["-rw-r--r-- 1 ftp ftp 10 Mar 3 10:42 a.rar"];
  size_reply := fun _ => Ok None;
  retrbinary := fun _ _ =>
    {| transfercmd := None; recvs := [Ok (block 10); Raise OSError_];
       voidresp := None |}
|}.

Definition odd_client : Client := {| ftp := Some odd_server; current_path := "/" |}.

(** A server that holds one file and honours the restart offset. *)
Definition file_server (content : list byte) : FTP := {|
  conn_id := 4;
  connect_reply := None;
  login_reply := None;
  voidcmd_reply := fun _ => None;
  pwd_reply := Ok "/";
  quit_reply := None;
  mlsd := fun _ => Ok [];
  retrlines := fun _ => Ok [];
  size_reply := fun _ => Ok (Some (Z.of_nat (length content)));
  retrbinary := fun _ rest =>
    {| transfercmd := None;
       recvs := [Ok (drop (match rest with Some r => Z.to_nat r | None => O end)
                       content);
                 Ok []];
       voidresp := None |}
|}.

Definition client : Client := {| ftp := Some server; current_path := "/pub" |}.

Definition legacy_client : Client :=
  {| ftp := Some legacy_server; current_path := "/pub" |}.


End Samples.

Module ArchiveSamples.
Import PosixPath App.

Definition dest : Path := ["tmp"; "dest"].

Definition disk : FS :=
  {[ ["tmp"] := Directory; ["tmp"; "dest"] := Directory;
     ["tmp"; "dest"; "foo.txt"] := File ["o"%byte; "l"%byte; "d"%byte] ]}.

Definition readme : Member :=
  {| filename := "docs/readme.txt"; is_dir_member := false;
     data := ["h"%byte; "i"%byte] |}.

Definition passwd : Member :=
  {| filename := "../../etc/passwd"; is_dir_member := false;
     data := ["r"%byte] |}.

Definition foo : Member :=
  {| filename := "foo.txt"; is_dir_member := false;
     data := ["n"%byte; "e"%byte; "w"%byte] |}.


End ArchiveSamples.

Module GuardSamples.
Import PosixPath App.

(** A file member aimed at a sibling of "/tmp/dest" whose name starts
    with "dest". *)
Definition evil : Member :=
  {| filename := "../dest_evil/x"; is_dir_member := false; data := [] |}.

(** A directory member at the top of the archive. *)
Definition sub : Member :=
  {| filename := "sub/"; is_dir_member := true; data := [] |}.

(** A LIST line whose size token is the superscript two, U+00B2. *)
Definition superscript_line : string :=
  "-rw-r--r-- 1 ftp ftp " +:+ String "178" " Mar 3 10:42 x".

(** A directory member below a directory of the archive. *)
Definition pictures : Member :=
  {| filename := "docs/img/"; is_dir_member := true; data := [] |}.

End GuardSamples.

(** * Properties *)

(** ** Strings *)

Example split_keeps_tail :
  Py.split 1 "a b  c " = ["a"; "b  c "].
Proof. reflexivity. Qed.

Example split_drops_blank_tail :
  Py.split 8 "a b c d e f g h   " = ["a"; "b"; "c"; "d"; "e"; "f"; "g"; "h"].
Proof. reflexivity. Qed.

Example int_examples :
  Py.int " 1_0 " = Ok 10 /\ Py.int "-7" = Ok (-7) /\ Py.int "1__0" = Raise ValueError
  /\ Py.int "" = Raise ValueError /\ Py.int "_1" = Raise ValueError
  /\ Py.int "12a" = Raise ValueError /\ Py.int "007" = Ok 7.
Proof. repeat split; reflexivity. Qed.

Example lower_example : Py.lower "ReadMe.TXT" = "readme.txt".
Proof. reflexivity. Qed.

Example split_on_example :
  Py.split_on "/" "/a//b/" = [""; "a"; ""; "b"; ""].
Proof. reflexivity. Qed.

Section StringFacts.

Lemma split_go_nonempty_words k w s :
  (forall x, w = Some x -> x <> "") ->
  Forall (fun t => t <> "") (Py.split_go k w s).
Proof.
  revert k w. induction s as [|c s IH]; intros k w Hw; simpl.
  - destruct w as [x|]; [|constructor].
    constructor; [by apply Hw | constructor].
  - destruct (Py.isspace c).
    + destruct w as [x|].
      * constructor; [by apply Hw|]. apply IH. by intros.
      * apply IH. by intros.
    + destruct w as [x|].
      * apply IH. intros y [= <-]. by destruct x.
      * destruct k as [|k]; [by repeat constructor|].
        apply IH. by intros y [= <-].
Qed.

Lemma split_go_some_not_nil k x s : Py.split_go k (Some x) s <> [].
Proof.
  revert k x. induction s as [|c s IH]; intros k x; simpl; [done|].
  destruct (Py.isspace c); [done | apply IH].
Qed.

Lemma split_nil_blank k s :
  Py.split_go k None s = [] -> Forall (fun c => Py.isspace c = true) (Py.chars s).
Proof.
  revert k. induction s as [|c s IH]; intros k; simpl; [by constructor|].
  destruct (Py.isspace c) eqn:Hc.
  - intros H. constructor; [done | by eapply IH].
  - destruct k as [|k]; [done|]. intros H. by apply split_go_some_not_nil in H.
Qed.

Lemma split_go_length k w s :
  (length (Py.split_go k w s) <= S k + match w with Some _ => 1 | None => 0 end)%nat.
Proof.
  revert k w. induction s as [|c s IH]; intros k w; simpl.
  - destruct w; simpl; lia.
  - destruct (Py.isspace c).
    + destruct w; simpl; specialize (IH k None); simpl in IH; lia.
    + destruct w as [x|].
      * apply (IH k (Some _)).
      * destruct k as [|k]; simpl; [lia|].
        specialize (IH k (Some (String c ""))). simpl in IH. lia.
Qed.

Lemma split_length maxsplit s : (length (Py.split maxsplit s) <= S maxsplit)%nat.
Proof. pose proof (split_go_length maxsplit None s) as H. simpl in H. unfold Py.split. lia. Qed.

Lemma digit_not_space c : Py.is_ascii_digit c = true -> Py.int_blank c = false.
Proof.
  unfold Py.is_ascii_digit, Py.int_blank, Py.between.
  intros [H1 H2]%andb_prop. apply N.leb_le in H1, H2.
  repeat (apply orb_false_intro); try apply andb_false_iff;
    rewrite ?N.leb_gt, ?N.eqb_neq; lia.
Qed.

Lemma digit_not_sign c :
  Py.is_ascii_digit c = true -> Ascii.eqb c "-" = false /\ Ascii.eqb c "+" = false.
Proof.
  intros H. split; apply Ascii.eqb_neq; intros ->; vm_compute in H; discriminate.
Qed.

Lemma lstrip_id s :
  Forall (fun c => Py.int_blank c = false) (Py.chars s) -> Py.lstrip s = s.
Proof. destruct s as [|c s]; [done|]. simpl. intros [-> _]%Forall_cons. done. Qed.

Lemma rstrip_id s :
  Forall (fun c => Py.int_blank c = false) (Py.chars s) -> Py.rstrip s = s.
Proof.
  induction s as [|c s IH]; [done|]. simpl. intros [Hc Hs]%Forall_cons.
  rewrite (IH Hs), Hc. by destruct s.
Qed.

Lemma int_digits_all l :
  Forall (fun c => Py.is_ascii_digit c = true) l ->
  Py.int_digits true l = Some (map Py.digit_val l).
Proof.
  induction 1 as [|c l Hc _ IH]; [done|]. simpl. by rewrite Hc, IH.
Qed.

(** [int] on a string of ASCII digits. *)
Lemma int_of_digits s :
  s <> "" ->
  Forall (fun c => Py.is_ascii_digit c = true) (Py.chars s) ->
  (length (Py.chars s) <= Py.int_max_str_digits)%nat ->
  Py.int s = Ok (Py.decimal s).
Proof.
  intros Hne Hd Hlen. unfold Py.int, Py.strip.
  assert (Hsp : Forall (fun c => Py.int_blank c = false) (Py.chars s)).
  { eapply Forall_impl; [exact Hd|]. intros c. apply digit_not_space. }
  rewrite (lstrip_id _ Hsp), (rstrip_id _ Hsp).
  destruct s as [|c s]; [done|]. simpl in *.
  apply Forall_cons in Hd as [Hc Hd].
  destruct (digit_not_sign c Hc) as [-> ->]. simpl.
  rewrite Hc, (int_digits_all _ Hd). simpl.
  rewrite length_map.
  destruct (Nat.ltb_spec Py.int_max_str_digits (S (length (Py.chars s)))); [lia|done].
Qed.

End StringFacts.

(** ** The stable sort *)

Section SortBy.
Context {A : Type} (key : A -> string).



Lemma insert_by_perm x l : FTPClient.insert_by key x l ≡ₚ x :: l.
Proof.
  induction l as [|y l IH]; simpl; [done|].
  destruct (String.leb (key x) (key y)); [done|].
  rewrite IH. apply Permutation_swap.
Qed.

Lemma sort_by_perm l : FTPClient.sort_by key l ≡ₚ l.
Proof.
  induction l as [|x l IH]; simpl; [done|].
  by rewrite insert_by_perm, IH.
Qed.



Lemma sort_by_Forall (P : A -> Prop) l :
  Forall P l -> Forall P (FTPClient.sort_by key l).
Proof. by rewrite sort_by_perm. Qed.

End SortBy.

(** ** Listings: single lines *)

Lemma last_Forall {A} (P : A -> Prop) (l : list A) d :
  Forall P l -> l <> [] -> P (List.last l d).
Proof.
  induction 1 as [|x l Hx Hl IH]; [done|]. intros _.
  destruct l as [|y l]; [done|]. by apply IH.
Qed.

Lemma prefix_nil s : String.prefix "" s = true.
Proof. by destruct s. Qed.

Lemma prefix_cons a b s1 s2 :
  String.prefix (String a s1) (String b s2) =
  if Ascii.eqb a b then String.prefix s1 s2 else false.
Proof.
  cbn [String.prefix].
  destruct (ascii_dec a b), (Ascii.eqb_spec a b); congruence.
Qed.

Lemma startswith_d mode :
  Py.startswith mode "d" = true <-> exists r, mode = String "d" r.
Proof.
  unfold Py.startswith. destruct mode as [|c r].
  - split; [done | by intros [? ?]].
  - rewrite prefix_cons, prefix_nil.
    destruct (Ascii.eqb_spec "d" c) as [<-|Hne].
    + split; [by eexists | done].
    + split; [done | intros [? [= ? ?]]; congruence].
Qed.

(** C5 (amended).  A LIST line that splits into fewer than 9 tokens never
    raises and gives an entry of type "file" with size 0 and an empty
    modification field.  Its name is the last token, which is not empty, when
    the line has a token; a line without any token (empty or all blank) gives
    the line itself as the name. *)
Theorem short_line_entry (line : string) :
  (length (Py.split 8 line) < 9)%nat ->
  exists e,
    FTPClient.list_entry line = Ok e /\
    FTPClient.type e = "file" /\ FTPClient.size e = 0 /\ FTPClient.modify e = "" /\
    match Py.split 8 line with
    | [] => FTPClient.name e = line /\
            Forall (fun c => Py.isspace c = true) (Py.chars line)
    | _ :: _ => FTPClient.name e = List.last (Py.split 8 line) "" /\
                FTPClient.name e <> ""
    end.
Proof.
  intros Hlen. unfold FTPClient.list_entry.
  apply Nat.ltb_lt in Hlen. rewrite Hlen.
  eexists. split; [reflexivity|]. simpl. repeat split.
  destruct (Py.split 8 line) as [|t ts] eqn:Hs.
  - split; [done|]. by apply (split_nil_blank 8).
  - split; [done|]. rewrite <- Hs. apply last_Forall.
    + apply split_go_nonempty_words. by intros.
    + by rewrite Hs.
Qed.

Lemma short_line_entry_witness :
  exists e,
    FTPClient.list_entry "total 12" = Ok e /\
    FTPClient.type e = "file" /\ FTPClient.size e = 0 /\ FTPClient.modify e = "" /\
    FTPClient.name e = "12" /\ FTPClient.name e <> "".
Proof.
  apply (short_line_entry "total 12"). vm_compute. lia.
Defined.

(** C5, the claim as written fails: the empty line has no token, and its
    entry has the empty name. *)
Lemma empty_line_has_empty_name :
  (length (Py.split 8 "") < 9)%nat /\
  FTPClient.list_entry "" =
    Ok {| FTPClient.name := ""; FTPClient.type := "file";
          FTPClient.size := 0; FTPClient.modify := "" |}.
Proof. split; [vm_compute; lia | reflexivity]. Qed.

(** C6 (amended).  A LIST line with at least 9 tokens splits into exactly 9.
    The entry's name is the ninth token; its type is "dir" when the first
    token begins with the letter d and "file" otherwise; its modification
    field is the day, the month and the time-or-year token, in that order,
    with one space between them.  Its size is 0 when the fifth token is not
    all digits, and the decimal value of the fifth token when that token is
    made of at most 4300 ASCII digits. *)
Theorem long_line_entry (line : string) :
  (9 <= length (Py.split 8 line))%nat ->
  exists mode t2 t3 t4 sz month day time_or_year nm,
    Py.split 8 line = [mode; t2; t3; t4; sz; month; day; time_or_year; nm] /\
    let entry n :=
      {| FTPClient.name := nm;
         FTPClient.type := if Py.startswith mode "d" then "dir" else "file";
         FTPClient.size := n;
         FTPClient.modify := day +:+ " " +:+ month +:+ " " +:+ time_or_year |} in
    (FTPClient.type (entry 0) = "dir" <-> exists r, mode = String "d" r) /\
    (FTPClient.type (entry 0) = "dir" \/ FTPClient.type (entry 0) = "file") /\
    (Py.isdigit sz = false -> FTPClient.list_entry line = Ok (entry 0)) /\
    (sz <> "" ->
     Forall (fun c => Py.is_ascii_digit c = true) (Py.chars sz) ->
     (length (Py.chars sz) <= Py.int_max_str_digits)%nat ->
     FTPClient.list_entry line = Ok (entry (Py.decimal sz))).
Proof.
  intros Hlen. pose proof (split_length 8 line) as Hle.
  unfold FTPClient.list_entry.
  destruct (Py.split 8 line)
    as [|mode [|t2 [|t3 [|t4 [|sz [|month [|day [|toy [|nm [|x l]]]]]]]]]];
    simpl in Hlen, Hle; try lia.
  exists mode, t2, t3, t4, sz, month, day, toy, nm.
  split; [done|]. simpl. repeat split.
  - destruct (Py.startswith mode "d") eqn:Hd; [|done].
    intros _. by apply startswith_d.
  - intros Hr. apply startswith_d in Hr. by rewrite Hr.
  - destruct (Py.startswith mode "d"); auto.
  - intros ->. done.
  - intros Hne Hd Hl.
    assert (Py.isdigit sz = true) as ->.
    { unfold Py.isdigit. apply andb_true_intro. split.
      - apply negb_true_iff, String.eqb_neq, Hne.
      - apply forallb_forall. intros c Hc%list_elem_of_In.
        unfold Py.isdigit_char.
        rewrite Forall_forall in Hd. by rewrite (Hd c Hc). }
    by rewrite (int_of_digits sz Hne Hd Hl).
Qed.

Lemma long_line_entry_witness :
  exists mode t2 t3 t4 sz month day time_or_year nm,
    Py.split 8 "-rw-r--r-- 1 ftp ftp 300000 Mar 3 10:42 data part.rar" =
      [mode; t2; t3; t4; sz; month; day; time_or_year; nm] /\
    let entry n :=
      {| FTPClient.name := nm;
         FTPClient.type := if Py.startswith mode "d" then "dir" else "file";
         FTPClient.size := n;
         FTPClient.modify := day +:+ " " +:+ month +:+ " " +:+ time_or_year |} in
    (FTPClient.type (entry 0) = "dir" <-> exists r, mode = String "d" r) /\
    (FTPClient.type (entry 0) = "dir" \/ FTPClient.type (entry 0) = "file") /\
    (Py.isdigit sz = false ->
     FTPClient.list_entry "-rw-r--r-- 1 ftp ftp 300000 Mar 3 10:42 data part.rar" = Ok (entry 0)) /\
    (sz <> "" ->
     Forall (fun c => Py.is_ascii_digit c = true) (Py.chars sz) ->
     (length (Py.chars sz) <= Py.int_max_str_digits)%nat ->
     FTPClient.list_entry "-rw-r--r-- 1 ftp ftp 300000 Mar 3 10:42 data part.rar" =
       Ok (entry (Py.decimal sz))).
Proof.
  apply (long_line_entry "-rw-r--r-- 1 ftp ftp 300000 Mar 3 10:42 data part.rar").
  vm_compute. lia.
Defined.

(** C6, the claim as written fails: the modification field starts with the
    day, not the month, and has spaces between the tokens. *)
Lemma modify_is_day_month_year :
  Py.split 8 "drwxr-xr-x 2 root root 4096 Jan 15 2023 pub" =
    ["drwxr-xr-x"; "2"; "root"; "root"; "4096"; "Jan"; "15"; "2023"; "pub"] /\
  FTPClient.list_entry "drwxr-xr-x 2 root root 4096 Jan 15 2023 pub" =
    Ok {| FTPClient.name := "pub"; FTPClient.type := "dir";
          FTPClient.size := 4096; FTPClient.modify := "15 Jan 2023" |} /\
  "15 Jan 2023" <> "Jan" +:+ "15" +:+ "2023" /\
  "15 Jan 2023" <> "Jan" +:+ " " +:+ "15" +:+ " " +:+ "2023".
Proof. repeat split; try reflexivity; discriminate. Qed.

(** ** Listings: order and fallback *)


(** C4.  [listdir] sends MLSD for the path first.  When that succeeds it is
    the only command and its records make the listing.  When it raises
    [error_perm] or [AttributeError], LIST is sent next for the same path,
    and the lines of a LIST reply make the listing, which is returned as a
    normal result when they parse. *)
Theorem listdir_fallback (self : FTPClient.Client) (c : FTPClient.FTP)
    (path : option string) (p : string) :
  FTPClient.ftp self = Some c ->
  p = default (FTPClient.current_path self) path ->
  (forall records, FTPClient.mlsd c p = Ok records ->
     FTPClient.listdir self path =
       ([FTPClient.EvMlsd (FTPClient.conn_id c) p],
        FTPClient.arrange <$> collect FTPClient.mlsd_entry records)) /\
  (forall e, FTPClient.mlsd c p = Raise e ->
     e = error_perm \/ e = AttributeError ->
     (FTPClient.listdir self path).1 =
       [FTPClient.EvMlsd (FTPClient.conn_id c) p;
        FTPClient.EvRetrlines (FTPClient.conn_id c) ("LIST " +:+ p)] /\
     (forall lines, FTPClient.retrlines c ("LIST " +:+ p) = Ok lines ->
        (FTPClient.listdir self path).2 =
          FTPClient.arrange <$> collect FTPClient.list_entry lines /\
        (forall entries, collect FTPClient.list_entry lines = Ok entries ->
           (FTPClient.listdir self path).2 = Ok (FTPClient.arrange entries)))).
Proof.
  intros Hc ->. unfold FTPClient.listdir. rewrite Hc. split.
  - intros records ->. done.
  - intros e -> He.
    assert (FTPClient.falls_back e = true) as -> by (by destruct He as [-> | ->]).
    destruct (FTPClient.retrlines c _) as [lines|e'] eqn:Hl.
    + split; [done|]. intros ? [= <-]. split; [done|].
      intros entries ->. done.
    + split; [done|]. intros ? [=].
Qed.

Lemma listdir_fallback_witness :
  (FTPClient.listdir Samples.legacy_client None).1 =
    [FTPClient.EvMlsd 2 "/pub"; FTPClient.EvRetrlines 2 "LIST /pub"] /\
  exists out, (FTPClient.listdir Samples.legacy_client None).2 = Ok out.
Proof.
  destruct (listdir_fallback Samples.legacy_client Samples.legacy_server None "/pub"
              eq_refl eq_refl) as [_ H].
  destruct (H error_perm eq_refl (or_introl eq_refl)) as [Hev Hout].
  split; [exact Hev|].
  destruct (Hout _ eq_refl) as [_ Hok].
  eexists. apply Hok. vm_compute. reflexivity.
Defined.

(** ** Downloads *)

Section Download.
Import FTPClient.

Lemma delivered_nonempty rs : Forall (fun b => b <> []) (delivered rs).
Proof.
  induction rs as [|[[|b data]|e] rs IH]; simpl; try constructor; done.
Qed.

Lemma total_len_cons b bs :
  total_len (b :: bs) = Z.of_nat (length b) + total_len bs.
Proof. unfold total_len. simpl. rewrite length_app. lia. Qed.

Lemma running_length acc bs : length (running acc bs) = length bs.
Proof. revert acc. induction bs; intros; simpl; auto. Qed.

Lemma running_lookup acc bs k x :
  running acc bs !! k = Some x -> x = acc + total_len (take (S k) bs).
Proof.
  revert acc k. induction bs as [|b bs IH]; intros acc k; [done|].
  destruct k as [|k]; simpl.
  - intros [= <-]. rewrite take_0, total_len_cons. unfold total_len. simpl. lia.
  - intros H%IH. rewrite total_len_cons. simpl in H. lia.
Qed.

Lemma running_above acc bs :
  Forall (fun b => b <> []) bs -> Forall (fun x => acc < x) (running acc bs).
Proof.
  revert acc. induction bs as [|b bs IH]; intros acc Hne; simpl; [constructor|].
  apply Forall_cons in Hne as [Hb Hbs].
  assert (0 < Z.of_nat (length b)) by (destruct b; simpl in *; [done | lia]).
  constructor; [lia|].
  eapply Forall_impl; [apply (IH _ Hbs)|]. simpl. lia.
Qed.

Lemma running_increasing acc bs :
  Forall (fun b => b <> []) bs -> StronglySorted Z.lt (running acc bs).
Proof.
  revert acc. induction bs as [|b bs IH]; intros acc Hne; simpl; [constructor|].
  apply Forall_cons in Hne as [Hb Hbs].
  constructor; [by apply IH | by apply running_above].
Qed.

Lemma running_last acc b bs :
  List.last (running acc (b :: bs)) 0 = acc + total_len (b :: bs).
Proof.
  revert acc b. induction bs as [|b' bs IH]; intros acc b.
  - simpl. unfold total_len. simpl. rewrite length_app. simpl. lia.
  - rewrite total_len_cons. change (running acc (b :: b' :: bs))
      with ((acc + Z.of_nat (length b)) :: running (acc + Z.of_nat (length b)) (b' :: bs)).
    change (List.last (?x :: running ?a (b' :: bs)) 0)
      with (List.last (running a (b' :: bs)) 0).
    rewrite IH. lia.
Qed.

(** What the receive loop leaves in the variables of [_writer]. *)
Lemma recv_loop_spec cb total rs w w' err :
  recv_loop (_writer cb total) rs w = (w', err) ->
  f w' = f w ++ concat (delivered rs) /\
  bytes_done w' = bytes_done w + total_len (delivered rs) /\
  progress w' = progress w ++
    (if cb then map (fun x => (x, total)) (running (bytes_done w) (delivered rs))
     else []).
Proof.
  revert w. induction rs as [|[[|b data]|e] rs IH]; intros w; simpl.
  1-2, 4: intros [= <- <-]; unfold total_len; simpl;
    rewrite ?app_nil_r; destruct cb; simpl; rewrite ?app_nil_r;
    repeat split; first [done | lia].
  intros H. apply IH in H as (Hf & Hb & Hp).
  rewrite Hf, Hb, Hp, total_len_cons. unfold _writer. simpl.
  split; [by rewrite <- app_assoc|]. split; [lia|].
  destruct cb; simpl; [by rewrite <- app_assoc | by rewrite app_nil_r].
Qed.

Lemma download_file_spec self c local remote_path cb blocksize rest :
  ftp self = Some c ->
  let d := download_file self local remote_path cb blocksize rest in
  let total := match size_reply c remote_path with Ok n => n | Raise _ => None end in
  let blocks := received (retrbinary c ("RETR " +:+ remote_path)
                            (if 0 <? rest then Some rest else None)) in
  local_file d = Some ((if 0 <? rest then default [] local else []) ++ concat blocks) /\
  calls d = if cb then map (fun x => (x, total)) (running rest blocks) else [].
Proof.
  intros Hc. unfold download_file, received, run_retrbinary. rewrite Hc.
  destruct (transfercmd _) as [e|]; simpl.
  { rewrite app_nil_r. by destruct cb. }
  destruct (recv_loop _ _ _) as [w err] eqn:Hloop.
  apply recv_loop_spec in Hloop as (Hf & _ & Hp). simpl in Hf, Hp.
  split.
  - destruct err; simpl; by rewrite Hf.
  - destruct err; simpl; by rewrite Hp.
Qed.

End Download.

(** C7.  With a callback given, [download_file] calls it once for every
    block received, and the byte counts it passes increase strictly.  When
    the download starts from offset 0, the server reports the size [n] and
    [n > 0] bytes arrive in all (as for the 300000-byte file), the last count
    passed is [n] and every call, from the first on, passes [n] as the
    total. *)
Theorem download_progress (self : FTPClient.Client) (c : FTPClient.FTP)
    (local : option (list byte)) (remote_path : string) (blocksize rest : Z) :
  FTPClient.ftp self = Some c ->
  let d := FTPClient.download_file self local remote_path true blocksize rest in
  let blocks := FTPClient.received
                  (FTPClient.retrbinary c ("RETR " +:+ remote_path)
                     (if 0 <? rest then Some rest else None)) in
  length (FTPClient.calls d) = length blocks /\
  StronglySorted Z.lt (map fst (FTPClient.calls d)) /\
  (forall n, rest = 0 -> FTPClient.size_reply c remote_path = Ok (Some n) ->
     total_len blocks = n -> 0 < n ->
     List.last (map fst (FTPClient.calls d)) 0 = n /\
     Forall (fun call => call.2 = Some n) (FTPClient.calls d)).
Proof.
  intros Hc d blocks.
  destruct (download_file_spec self c local remote_path true blocksize rest Hc)
    as [_ Hcalls].
  fold d blocks in Hcalls. rewrite Hcalls.
  assert (Hne : Forall (fun b => b <> []) blocks).
  { unfold blocks, FTPClient.received.
    destruct (FTPClient.transfercmd _); [constructor | apply delivered_nonempty]. }
  rewrite length_map, running_length, map_map, map_id.
  split; [done|]. split; [by apply running_increasing|].
  intros n -> Hsize Hn Hpos. rewrite Hsize. split.
  - destruct blocks as [|b bs]; [by unfold total_len in Hn; simpl in Hn; lia|].
    rewrite running_last. lia.
  - apply Forall_forall. intros call Hin.
    apply list_elem_of_fmap in Hin as (x & -> & _). done.
Qed.

Lemma download_progress_witness :
  let d := FTPClient.download_file Samples.client None "/pub/data.rar" true 65536 0 in
  length (FTPClient.calls d) = 5%nat /\
  List.last (map fst (FTPClient.calls d)) 0 = 300000 /\
  Forall (fun call => call.2 = Some 300000) (FTPClient.calls d).
Proof.
  destruct (download_progress Samples.client Samples.server None "/pub/data.rar"
              65536 0 eq_refl) as (Hlen & _ & H).
  split; [exact Hlen|].
  apply (H 300000); [reflexivity | reflexivity | vm_compute; reflexivity | lia].
Defined.

(** C10.  When [download_file] resumes at offset [rest > 0], the count passed
    to the callback starts from [rest]: the call for block number [k] passes
    [rest] plus the bytes of the blocks appended to the local file up to and
    including that block, so the first call passes [rest] plus the length of
    the first block; the file ends as its old content followed by the blocks
    received. *)
Theorem resume_progress (self : FTPClient.Client) (c : FTPClient.FTP)
    (local : option (list byte)) (remote_path : string) (blocksize rest : Z) :
  FTPClient.ftp self = Some c ->
  0 < rest ->
  let d := FTPClient.download_file self local remote_path true blocksize rest in
  let blocks := FTPClient.received
                  (FTPClient.retrbinary c ("RETR " +:+ remote_path) (Some rest)) in
  FTPClient.local_file d = Some (default [] local ++ concat blocks) /\
  length (FTPClient.calls d) = length blocks /\
  (forall k call, FTPClient.calls d !! k = Some call ->
     call.1 = rest + total_len (take (S k) blocks) /\
     total_len (take (S k) blocks) < call.1) /\
  (forall b bs, blocks = b :: bs ->
     exists total, FTPClient.calls d !! 0%nat = Some (rest + Z.of_nat (length b), total)).
Proof.
  intros Hc Hrest d blocks.
  destruct (download_file_spec self c local remote_path true blocksize rest Hc)
    as [Hfile Hcalls].
  assert (Hlt : (0 <? rest) = true) by (by apply Z.ltb_lt).
  rewrite Hlt in Hfile, Hcalls. fold d blocks in Hfile, Hcalls.
  rewrite Hcalls, Hfile. split; [done|].
  split; [by rewrite length_map, running_length|]. split.
  - intros k call Hk. rewrite list_lookup_fmap in Hk.
    destruct (running rest blocks !! k) as [x|] eqn:Hx; [|done].
    injection Hk as <-. apply running_lookup in Hx. simpl. lia.
  - intros b bs ->. eexists. reflexivity.
Qed.

Lemma resume_progress_witness :
  let d := FTPClient.download_file Samples.client (Some (Samples.block 196608))
             "/pub/data.rar" true 65536 196608 in
  exists total,
    FTPClient.calls d !! 0%nat = Some (196608 + 65536, total).
Proof.
  destruct (resume_progress Samples.client Samples.server
              (Some (Samples.block 196608)) "/pub/data.rar" 65536 196608
              eq_refl eq_refl) as (_ & _ & _ & H).
  destruct (H (Samples.block 65536) [Samples.block 37856] eq_refl) as [total Ht].
  exists total. exact Ht.
Defined.

(** ** Sessions *)

(** C9.  The client has one handle, [self.ftp].  [connect] first runs
    [close] on it: QUIT (and a socket close when QUIT raises) goes to the old
    connection, and only then is the new connection used.  All calls of
    [connect] after that go to the new connection only.  When [connect]
    returns, the handle is the new connection; when it raises, as on a socket
    or login failure, the handle is [None], so the old and the new connection
    are never both attached. *)
Theorem connect_single_connection (self : FTPClient.Client) (new : FTPClient.FTP)
    (host : string) (port : Z) (user password : string) (timeout : Z) :
  let '(evs, self', r) :=
    FTPClient.connect self new host port user password timeout in
  let teardown := (FTPClient.close self).1 in
  (exists setup,
     evs = teardown ++ setup /\ setup <> [] /\
     Forall (fun ev => FTPClient.conn_of ev = FTPClient.conn_id new) setup) /\
  match FTPClient.ftp self with
  | Some old =>
      exists rest, teardown = FTPClient.EvQuit (FTPClient.conn_id old) :: rest /\
        Forall (fun ev => FTPClient.conn_of ev = FTPClient.conn_id old) rest
  | None => teardown = []
  end /\
  FTPClient.ftp (FTPClient.close self).2 = None /\
  ((r = Ok true /\ FTPClient.ftp self' = Some new) \/
   (exists e, r = Raise e /\ FTPClient.ftp self' = None)) /\
  (forall e, FTPClient.connect_reply new = Some e ->
     r = Raise e /\ FTPClient.ftp self' = None) /\
  (forall e, FTPClient.connect_reply new = None ->
     FTPClient.login_reply new = Some e ->
     r = Raise e /\ FTPClient.ftp self' = None).
Proof.
  unfold FTPClient.connect.
  destruct (FTPClient.close self) as [ev0 self1] eqn:Hclose.
  assert (Hnone : FTPClient.ftp self1 = None).
  { unfold FTPClient.close in Hclose.
    destruct (FTPClient.ftp self) eqn:Hf; injection Hclose as <- <-; done. }
  assert (Hold : match FTPClient.ftp self with
    | Some old =>
        exists rest, ev0 = FTPClient.EvQuit (FTPClient.conn_id old) :: rest /\
          Forall (fun ev => FTPClient.conn_of ev = FTPClient.conn_id old) rest
    | None => ev0 = []
    end).
  { unfold FTPClient.close in Hclose.
    destruct (FTPClient.ftp self) as [old|]; [|by injection Hclose as <- _].
    destruct (FTPClient.quit_reply old); injection Hclose as <- _;
      eexists; (split; [reflexivity|]); by repeat constructor. }
  destruct (FTPClient.connect_reply new) as [e1|] eqn:H1;
    [|destruct (FTPClient.login_reply new) as [e2|] eqn:H2;
      [|destruct (FTPClient.voidcmd_reply new "TYPE I") as [e3|] eqn:H3]];
    simpl; (split; [eexists; rewrite <- ?app_assoc;
                    (split; [reflexivity|]); split; [done|];
                    by repeat constructor|]);
    (split; [exact Hold|]); (split; [exact Hnone|]);
    (split; [first [by left | right; by eexists]|]);
    split; intros; simplify_eq; done.
Qed.

(** ** Paths as text *)

Section PathText.
Import PosixPath.

Lemma app_cons a s t : String a s +:+ t = String a (s +:+ t).
Proof. reflexivity. Qed.

Lemma app_nil_left s : "" +:+ s = s.
Proof. reflexivity. Qed.

Lemma app_nil_right s : s +:+ "" = s.
Proof. induction s as [|a s IH]; [done|]. by rewrite app_cons, IH. Qed.

Lemma app_assoc_str s t u : (s +:+ t) +:+ u = s +:+ t +:+ u.
Proof. induction s as [|a s IH]; [done|]. by rewrite !app_cons, IH. Qed.

Lemma prefix_app s t u : String.prefix (s +:+ t) (s +:+ u) = String.prefix t u.
Proof.
  induction s as [|a s IH]; [done|].
  by rewrite !app_cons, prefix_cons, Ascii.eqb_refl.
Qed.

Lemma prefix_app_r s t : String.prefix s (s +:+ t) = true.
Proof.
  rewrite <- (app_nil_right s) at 1. rewrite prefix_app. apply prefix_nil.
Qed.

Lemma join_segs c p : Py.join "/" (c :: p) = c +:+ segs p.
Proof.
  revert c. induction p as [|x p IH]; intros c.
  - simpl. by rewrite app_nil_right.
  - change (Py.join "/" (c :: x :: p)) with (c +:+ "/" +:+ Py.join "/" (x :: p)).
    by rewrite IH.
Qed.

Lemma str_cons c p : str (c :: p) = segs (c :: p).
Proof. unfold str. by rewrite join_segs. Qed.

Lemma segs_app p q : segs (p ++ q) = segs p +:+ segs q.
Proof.
  induction p as [|c p IH]; [done|].
  simpl. by rewrite IH, !app_assoc_str.
Qed.

Lemma segs_head p : p <> [] -> exists t, segs p = String "/" t.
Proof. destruct p as [|c p]; [done|]. intros _. by eexists. Qed.

Lemma segs_tail_shape p : segs p = "" \/ exists t, segs p = String "/" t.
Proof. destruct p; [by left | right; by eexists]. Qed.

(** Inside the directory, then the text of the directory is a prefix. *)
Lemma inside_text d p : inside d p -> Py.startswith (str p) (str d) = true.
Proof.
  intros [r ->]. unfold Py.startswith.
  destruct d as [|c d].
  - destruct r as [|x r]; [done|].
    change ([] ++ x :: r) with (x :: r). rewrite str_cons.
    change (str []) with (String "/" "").
    simpl segs. by rewrite app_cons, prefix_cons, Ascii.eqb_refl, prefix_nil.
  - change ((c :: d) ++ r) with (c :: (d ++ r)).
    rewrite !str_cons.
    change (c :: d ++ r) with ((c :: d) ++ r).
    rewrite segs_app. apply prefix_app_r.
Qed.

Lemma noslash_step c x t u :
  Forall (fun a => a <> "/"%char) (Py.chars c) ->
  Forall (fun a => a <> "/"%char) (Py.chars x) ->
  (t = "" \/ exists t', t = String "/" t') ->
  String.prefix (c +:+ String "/" u) (x +:+ t) = true ->
  x = c /\ String.prefix (String "/" u) t = true.
Proof.
  revert x. induction c as [|a c IH]; intros x Hc Hx Ht.
  - rewrite app_nil_left. destruct x as [|b x]; [done|].
    rewrite app_cons, prefix_cons.
    apply Forall_cons in Hx as [Hb _].
    destruct (Ascii.eqb_spec "/" b); [congruence | done].
  - apply Forall_cons in Hc as [Ha Hc]. rewrite app_cons.
    destruct x as [|b x].
    + rewrite app_nil_left. destruct Ht as [-> | [t' ->]]; [done|].
      rewrite prefix_cons. destruct (Ascii.eqb_spec a "/"); [congruence | done].
    + apply Forall_cons in Hx as [Hb Hx].
      rewrite app_cons, prefix_cons.
      destruct (Ascii.eqb_spec a b) as [->|]; [|done].
      intros H. destruct (IH x Hc Hx Ht H) as [-> ?]. done.
Qed.

Lemma noslash_last c x t :
  Forall (fun a => a <> "/"%char) (Py.chars c) ->
  (t = "" \/ exists t', t = String "/" t') ->
  String.prefix c (x +:+ t) = true ->
  exists s, x = c +:+ s.
Proof.
  revert x. induction c as [|a c IH]; intros x Hc Ht.
  - intros _. by exists x.
  - apply Forall_cons in Hc as [Ha Hc].
    destruct x as [|b x].
    + rewrite app_nil_left. destruct Ht as [-> | [t' ->]]; [done|].
      rewrite prefix_cons. destruct (Ascii.eqb_spec a "/"); [congruence | done].
    + rewrite app_cons, prefix_cons.
      destruct (Ascii.eqb_spec a b) as [->|]; [|done].
      intros H. destruct (IH x Hc Ht H) as [s ->]. by exists s.
Qed.

Lemma segs_prefix d p :
  d <> [] ->
  Forall plain_part d -> Forall plain_part p ->
  String.prefix (segs d) (segs p) = true ->
  inside d p \/ lookalike d p.
Proof.
  revert p. induction d as [|c d IH]; [done|]. intros p _ Hd Hp.
  apply Forall_cons in Hd as [[Hc0 Hc] Hd].
  destruct p as [|x p]; [done|].
  apply Forall_cons in Hp as [[Hx0 Hx] Hp].
  cbn [segs]. rewrite !app_cons, prefix_cons, Ascii.eqb_refl, !app_nil_left.
  destruct d as [|c' d].
  - cbn [segs]. rewrite app_nil_right. intros H.
    destruct (noslash_last c x (segs p) Hc (segs_tail_shape p) H) as [s ->].
    destruct s as [|a s].
    + left. rewrite app_nil_right. by exists p.
    + right. by exists [], c, (String a s), p.
  - intros H. cbn [segs] in H. rewrite app_cons, app_nil_left in H.
    destruct (noslash_step c x (segs p) (c' +:+ segs d) Hc Hx (segs_tail_shape p))
      as [-> H']; [exact H|].
    destruct (IH p) as [[r ->] | (d0 & c0 & s & r & Hd0 & Hs & ->)];
      [done | done | done | exact H' | |].
    + left. by exists r.
    + right. exists (c :: d0), c0, s, r. by rewrite Hd0.
Qed.

(** The text of the directory is a prefix only for paths inside it and
    for paths inside a lookalike sibling. *)
Lemma text_prefix d p :
  Forall plain_part d -> Forall plain_part p ->
  Py.startswith (str p) (str d) = true ->
  inside d p \/ lookalike d p.
Proof.
  intros Hd Hp. unfold Py.startswith.
  destruct d as [|c d]; [intros _; left; by exists p|].
  rewrite str_cons.
  destruct p as [|x p].
  - change (str []) with (String "/" ""). cbn [segs].
    rewrite !app_cons, prefix_cons, Ascii.eqb_refl, app_nil_left.
    apply Forall_cons in Hd as [[Hc0 _] _].
    destruct c; [done|]. by rewrite app_cons.
  - rewrite str_cons. by apply segs_prefix.
Qed.

End PathText.

(** ** The extractor *)

Section Extractor.
Import PosixPath App.

Lemma split_on_noslash s :
  Forall (fun c => Forall (fun a => a <> "/"%char) (Py.chars c)) (Py.split_on "/" s).
Proof.
  induction s as [|a s IH]; simpl; [by repeat constructor|].
  destruct (Ascii.eqb_spec a "/") as [->|Hne].
  - constructor; [constructor | done].
  - destruct (Py.split_on "/" s) as [|w ws]; [by repeat constructor|].
    apply Forall_cons in IH as [Hw Hws].
    constructor; [|done]. by constructor.
Qed.

Lemma parse_parts_plain s : Forall plain_part (parse_parts s).
Proof.
  unfold parse_parts. apply Forall_forall.
  intros c [[Hne _] Hin]%list_elem_of_filter. split; [done|].
  pose proof (split_on_noslash s) as H. rewrite Forall_forall in H. by apply H.
Qed.

Lemma Forall_removelast {A} (P : A -> Prop) l :
  Forall P l -> Forall P (removelast l).
Proof.
  induction 1 as [|x l Hx Hl IH]; [constructor|].
  destruct l; [constructor | by constructor].
Qed.

Lemma fold_step_plain p acc :
  Forall plain_part acc -> Forall plain_part p ->
  Forall plain_part (fold_left step p acc).
Proof.
  revert acc. induction p as [|c p IH]; intros acc Hacc Hp; [done|].
  apply Forall_cons in Hp as [Hc Hp]. simpl. apply IH; [|done].
  unfold step. destruct (decide (c = "..")).
  - by apply Forall_removelast.
  - apply Forall_app. split; [done|]. constructor; [done | constructor].
Qed.

Lemma resolve_plain p : Forall plain_part p -> Forall plain_part (resolve p).
Proof. apply fold_step_plain. constructor. Qed.

Lemma target_plain dest_dir m :
  Forall plain_part dest_dir -> Forall plain_part (target dest_dir m).
Proof.
  intros Hd. unfold target, joinpath.
  destruct (Py.startswith _ _); [apply parse_parts_plain|].
  apply Forall_app. split; [done | apply parse_parts_plain].
Qed.

Lemma guard_parent_plain dest_dir m :
  Forall plain_part dest_dir ->
  Forall plain_part (target_resolved_parent dest_dir m).
Proof.
  intros Hd. unfold target_resolved_parent, parent.
  apply Forall_removelast, resolve_plain.
  destruct (is_dir_member m); [apply Forall_removelast|]; by apply target_plain.
Qed.

(** A guard path outside the directory and outside its lookalikes fails
    the test. *)
Lemma guard_rejects dest_dir m :
  Forall plain_part dest_dir ->
  ~ inside (resolve dest_dir) (target_resolved_parent dest_dir m) ->
  ~ lookalike (resolve dest_dir) (target_resolved_parent dest_dir m) ->
  guard_ok dest_dir m = false.
Proof.
  intros Hd Hin Hlook. unfold guard_ok.
  destruct (Py.startswith _ _) eqn:Hs; [|done].
  apply text_prefix in Hs as [?|?]; try done.
  - by apply resolve_plain.
  - by apply guard_parent_plain.
Qed.

Variable rf_extract : FS -> Path -> Member -> FS * option PyExc.

Lemma extract_rar_app fs pre post dest_dir overwrite :
  _extract_rar rf_extract fs (pre ++ post) dest_dir overwrite =
  match _extract_rar rf_extract fs pre dest_dir overwrite with
  | (fs1, None) => _extract_rar rf_extract fs1 post dest_dir overwrite
  | (fs1, Some e) => (fs1, Some e)
  end.
Proof.
  revert fs. induction pre as [|m pre IH]; intros fs; simpl; [done|].
  destruct (extract_member _ _ _ _ _) as [fs' [e|]]; [done | apply IH].
Qed.

Lemma rejected_member fs dest_dir overwrite m :
  guard_ok dest_dir m = false ->
  extract_member rf_extract fs dest_dir overwrite m =
    (fs, Some (UnsafePath (filename m))).
Proof. intros H. unfold extract_member. by rewrite H. Qed.

Lemma extract_stops_at_rejected fs pre m post dest_dir overwrite fs1 :
  guard_ok dest_dir m = false ->
  _extract_rar rf_extract fs pre dest_dir overwrite = (fs1, None) ->
  _extract_rar rf_extract fs (pre ++ m :: post) dest_dir overwrite =
    (fs1, Some (UnsafePath (filename m))).
Proof.
  intros Hg Hpre. rewrite extract_rar_app, Hpre. simpl.
  by rewrite rejected_member.
Qed.

Lemma extract_fails_with_rejected fs ms m dest_dir overwrite :
  m ∈ ms -> guard_ok dest_dir m = false ->
  (_extract_rar rf_extract fs ms dest_dir overwrite).2 <> None.
Proof.
  intros Hin Hg. revert fs.
  induction ms as [|x ms IH]; intros fs; [by apply elem_of_nil in Hin|].
  simpl. destruct (extract_member _ _ _ _ x) as [fs' [e|]] eqn:Hx; [done|].
  apply elem_of_cons in Hin as [<-|Hin]; [|by apply IH].
  rewrite rejected_member in Hx by done. by inversion Hx.
Qed.

Lemma walk_from_app fs cur p q :
  walk_from fs cur (p ++ q) =
  match walk_from fs cur p with
  | Ok mid => walk_from fs mid q
  | Raise e => Raise e
  end.
Proof.
  revert cur. induction p as [|c p IH]; intros cur; simpl; [done|].
  destruct (node_at fs cur) as [[|]|]; by rewrite ?IH.
Qed.

(** A path that exists has a parent that is a directory, and making that
    parent changes nothing. *)
Lemma mkdir_parent_of_existing fs t :
  t <> [] -> exists_ fs t = true ->
  mkdir_parents fs (parent t) = (fs, None).
Proof.
  intros Hne Hex. unfold parent.
  destruct (exists_last Hne) as (pt & c & ->).
  rewrite removelast_last.
  unfold exists_, stat, walk in Hex.
  rewrite walk_from_app in Hex.
  destruct (walk_from fs [] pt) as [mid|e] eqn:Hw; [|done].
  simpl in Hex.
  destruct (node_at fs mid) as [[d|]|] eqn:Hmid; try done.
  unfold mkdir_parents.
  assert (Hmk : os_mkdir fs pt = (fs, Some FileExistsError)).
  { unfold os_mkdir, walk. by rewrite Hw, Hmid. }
  assert (Hdir : is_dir fs pt = true).
  { unfold is_dir, stat, walk. rewrite Hw. simpl. by rewrite Hmid. }
  rewrite <- (rev_involutive pt) in Hmk, Hdir.
  destruct (rev pt) as [|x rp]; cbn [mkdir_rev]; by rewrite Hmk, Hdir.
Qed.

End Extractor.

Section GuardPath.
Import PosixPath App.

Lemma inside_removelast d q : inside d (removelast q) -> inside d q.
Proof.
  intros [r Hr]. destruct (decide (q = [])) as [->|Hne]; [by exists r|].
  destruct (exists_last Hne) as (q' & x & ->).
  rewrite removelast_last in Hr. subst q'.
  exists (r ++ [x]). by rewrite app_assoc.
Qed.

End GuardPath.

(** C2.  When the guard test fails for a member and the members before it
    were extracted without error, [_extract_rar] raises the unsafe-path
    exception for that member; the file system is then the one the earlier
    members left, whatever members follow in the archive. *)
Theorem unsafe_member_aborts
    (rf_extract : PosixPath.FS -> list string -> App.Member -> PosixPath.FS * option PyExc)
    (fs fs1 : PosixPath.FS) (pre : list App.Member) (m : App.Member)
    (post : list App.Member) (dest_dir : list string) (overwrite : bool) :
  App.guard_ok dest_dir m = false ->
  App._extract_rar rf_extract fs pre dest_dir overwrite = (fs1, None) ->
  App._extract_rar rf_extract fs (pre ++ m :: post) dest_dir overwrite =
    (fs1, Some (UnsafePath (App.filename m))) /\
  App._extract_rar rf_extract fs (pre ++ m :: post) dest_dir overwrite =
    App._extract_rar rf_extract fs (pre ++ [m]) dest_dir overwrite.
Proof.
  intros Hg Hpre.
  rewrite !(extract_stops_at_rejected rf_extract fs pre m _ dest_dir overwrite fs1) by done.
  done.
Qed.

Lemma unsafe_member_aborts_witness :
  let r := App._extract_rar App.extract_in_place ArchiveSamples.disk
             ([ArchiveSamples.readme] ++ ArchiveSamples.passwd :: [ArchiveSamples.foo])
             ArchiveSamples.dest true in
  r.2 = Some (UnsafePath "../../etc/passwd") /\
  r.1 !! ["tmp"; "dest"; "docs"; "readme.txt"] = Some (PosixPath.File ["h"%byte; "i"%byte]) /\
  r.1 !! ["tmp"; "dest"; "foo.txt"] = Some (PosixPath.File ["o"%byte; "l"%byte; "d"%byte]).
Proof.
  destruct (unsafe_member_aborts App.extract_in_place ArchiveSamples.disk
              (App._extract_rar App.extract_in_place ArchiveSamples.disk
                 [ArchiveSamples.readme] ArchiveSamples.dest true).1
              [ArchiveSamples.readme] ArchiveSamples.passwd [ArchiveSamples.foo]
              ArchiveSamples.dest true) as [H _];
    [reflexivity | reflexivity |].
  cbv zeta. rewrite H. repeat split; reflexivity.
Defined.

(** ** The extractor against any operating system *)

Section AnySystemFacts.
Import PosixPath App.
Context {St : Type} (os : OS St).

Lemma extract_rar_os_app st pre post dest_dir overwrite :
  _extract_rar_os os st (pre ++ post) dest_dir overwrite =
  match _extract_rar_os os st pre dest_dir overwrite with
  | (st1, None) => _extract_rar_os os st1 post dest_dir overwrite
  | (st1, Some e) => (st1, Some e)
  end.
Proof.
  revert st. induction pre as [|m pre IH]; intros st; simpl; [done|].
  destruct (extract_member_os _ _ _ _ _) as [st' [e|]]; [done | apply IH].
Qed.

Lemma rejected_member_os st dest_dir overwrite m :
  guard_os os st dest_dir m = Ok false ->
  extract_member_os os st dest_dir overwrite m =
    (st, Some (UnsafePath (filename m))).
Proof. intros H. unfold extract_member_os. by rewrite H. Qed.

(** A member that escapes fails the test of the guard. *)
Lemma escapes_guard st dest_dir m :
  escapes os st dest_dir m -> guard_os os st dest_dir m = Ok false.
Proof.
  intros (rd & rt & Hd & Ht & Prd & Prt & Hout & Hlook).
  unfold guard_os. rewrite Ht, Hd. cbn. f_equal.
  destruct (Py.startswith _ _) eqn:Hs; [|done].
  apply text_prefix in Hs as [Hin|?]; [| done | done |].
  - exfalso. by apply Hout, inside_removelast.
  - by apply Forall_removelast.
Qed.

End AnySystemFacts.

Section PlainSystem.
Import PosixPath App.
Variable rf_extract : FS -> Path -> Member -> FS * option PyExc.

Lemma guard_os_posix fs dest_dir m :
  guard_os (posix_os rf_extract) fs dest_dir m = Ok (guard_ok dest_dir m).
Proof. done. Qed.

Lemma extract_member_posix fs dest_dir overwrite m :
  extract_member_os (posix_os rf_extract) fs dest_dir overwrite m =
  extract_member rf_extract fs dest_dir overwrite m.
Proof.
  unfold extract_member_os, extract_member. rewrite guard_os_posix.
  destruct (guard_ok dest_dir m); [|done]. simpl.
  destruct (is_dir_member m); [done|].
  by destruct (mkdir_parents _ _) as [fs1 [e|]].
Qed.

Lemma extract_rar_posix fs members dest_dir overwrite :
  _extract_rar_os (posix_os rf_extract) fs members dest_dir overwrite =
  _extract_rar rf_extract fs members dest_dir overwrite.
Proof.
  revert fs. induction members as [|m ms IH]; intros fs; simpl; [done|].
  rewrite extract_member_posix.
  destruct (extract_member _ _ _ _ _) as [fs' [e|]]; [done | apply IH].
Qed.

End PlainSystem.

(** C1 (amended).  Take a member that escapes the extraction directory when
    the extraction reaches it: what [Path.resolve] returns then for the
    target of a file member, or for the parent directory of a directory
    member, is neither the resolved extraction directory nor a path below
    it, and its parent is no lookalike of the directory.  Whatever the
    operating system does, symbolic links followed, an archive that holds
    such a member is never extracted with success.  When the members before
    it were extracted without error, [_extract_rar] raises the unsafe-path
    exception for it and leaves the system as those earlier members left
    it: nothing is written for this member or a later one.  When it is the
    first member, nothing is written at all. *)
Theorem escaping_member_rejected {St : Type} (os : App.OS St) (st : St)
    (pre : list App.Member) (m : App.Member) (post : list App.Member)
    (dest_dir : list string) (overwrite : bool) :
  (forall st1, App._extract_rar_os os st pre dest_dir overwrite = (st1, None) ->
     escapes os st1 dest_dir m) ->
  (App._extract_rar_os os st (pre ++ m :: post) dest_dir overwrite).2 <> None /\
  (forall st1,
     App._extract_rar_os os st pre dest_dir overwrite = (st1, None) ->
     App._extract_rar_os os st (pre ++ m :: post) dest_dir overwrite =
       (st1, Some (UnsafePath (App.filename m)))) /\
  (pre = [] ->
   App._extract_rar_os os st (m :: post) dest_dir overwrite =
     (st, Some (UnsafePath (App.filename m)))).
Proof.
  intros Hesc.
  assert (Hstop : forall st1,
    App._extract_rar_os os st pre dest_dir overwrite = (st1, None) ->
    App._extract_rar_os os st (pre ++ m :: post) dest_dir overwrite =
      (st1, Some (UnsafePath (App.filename m)))).
  { intros st1 Hpre. rewrite extract_rar_os_app, Hpre. simpl.
    rewrite rejected_member_os; [done|]. by apply escapes_guard, Hesc. }
  split; [|split; [exact Hstop|]].
  - destruct (App._extract_rar_os os st pre dest_dir overwrite)
      as [st1 [e|]] eqn:Hpre.
    + by rewrite extract_rar_os_app, Hpre.
    + by rewrite (Hstop st1).
  - intros ->. by apply (Hstop st).
Qed.

Lemma escaping_member_rejected_witness :
  App._extract_rar_os (App.posix_os App.extract_in_place) ArchiveSamples.disk
    (ArchiveSamples.passwd :: [ArchiveSamples.readme]) ArchiveSamples.dest true =
  (ArchiveSamples.disk, Some (UnsafePath "../../etc/passwd")).
Proof.
  destruct (escaping_member_rejected (App.posix_os App.extract_in_place)
              ArchiveSamples.disk [] ArchiveSamples.passwd
              [ArchiveSamples.readme] ArchiveSamples.dest true) as (_ & _ & H).
  - intros st1 [= <-]. exists ["tmp"; "dest"], ["etc"; "passwd"].
    split; [reflexivity|]. split; [reflexivity|].
    split; [repeat constructor; try discriminate; by vm_compute|].
    split; [repeat constructor; try discriminate; by vm_compute|].
    split.
    + intros [r Hr]. discriminate.
    + intros (d0 & c & s & rest & Hd0 & _ & Hp).
      vm_compute in Hp. destruct d0 as [|x [|y d0]]; simpl in Hd0; discriminate.
  - by apply H.
Defined.

(** C1, the claim as written fails: the member "../../etc/passwd" resolves
    outside the directory and the call raises for it, but the file of the
    member before it has been written and stays. *)
Lemma file_written_before_unsafe_member :
  let r := App._extract_rar App.extract_in_place ArchiveSamples.disk
             [ArchiveSamples.readme; ArchiveSamples.passwd]
             ArchiveSamples.dest true in
  PosixPath.resolve (App.target ArchiveSamples.dest ArchiveSamples.passwd) =
    ["etc"; "passwd"] /\
  r.2 = Some (UnsafePath "../../etc/passwd") /\
  ArchiveSamples.disk !! ["tmp"; "dest"; "docs"; "readme.txt"] = None /\
  r.1 !! ["tmp"; "dest"; "docs"; "readme.txt"] =
    Some (PosixPath.File ["h"%byte; "i"%byte]).
Proof. repeat split; reflexivity. Qed.

(** C8.  With [overwrite] false, a file member whose target lies in the
    extraction directory and exists already is skipped: the step raises
    nothing and leaves the file system, so the bytes of the existing file
    too, as it was, and the extraction goes on with the next member as if
    this one were not in the archive. *)
Theorem existing_target_skipped
    (rf_extract : PosixPath.FS -> list string -> App.Member -> PosixPath.FS * option PyExc)
    (fs : PosixPath.FS) (m : App.Member) (post : list App.Member)
    (dest_dir below : list string) :
  App.is_dir_member m = false ->
  PosixPath.resolve (App.target dest_dir m) = PosixPath.resolve dest_dir ++ below ->
  below <> [] ->
  PosixPath.exists_ fs (App.target dest_dir m) = true ->
  App.extract_member rf_extract fs dest_dir false m = (fs, None) /\
  App._extract_rar rf_extract fs (m :: post) dest_dir false =
    App._extract_rar rf_extract fs post dest_dir false.
Proof.
  intros Hfile Hres Hbelow Hex.
  assert (Hstep : App.extract_member rf_extract fs dest_dir false m = (fs, None)).
  { unfold App.extract_member.
    assert (App.guard_ok dest_dir m = true) as ->.
    { unfold App.guard_ok. apply inside_text.
      unfold App.target_resolved_parent, PosixPath.parent.
      rewrite Hfile, Hres, removelast_app by done. by eexists. }
    rewrite Hfile. simpl.
    assert (Hne : App.target dest_dir m <> []).
    { intros Ht. rewrite Ht in Hres. unfold PosixPath.resolve in Hres at 1.
      simpl in Hres. symmetry in Hres. by apply app_eq_nil in Hres as [_ ?]. }
    rewrite (mkdir_parent_of_existing fs _ Hne Hex).
    rewrite andb_false_r, orb_false_r, Hex. done. }
  split; [done|]. simpl. by rewrite Hstep.
Qed.

Lemma existing_target_skipped_witness :
  App._extract_rar App.extract_in_place ArchiveSamples.disk
    [ArchiveSamples.foo] ArchiveSamples.dest false =
  (ArchiveSamples.disk, None).
Proof.
  destruct (existing_target_skipped App.extract_in_place ArchiveSamples.disk
              ArchiveSamples.foo [] ArchiveSamples.dest ["foo.txt"])
    as [_ H]; [reflexivity | reflexivity | discriminate | reflexivity |].
  exact H.
Defined.

(** ** Behaviour at the edges of the guard and of the size field *)

(** The guard compares texts: a target in "/tmp/dest_evil" passes the test
    for "/tmp/dest". *)
Example lookalike_sibling_passes_guard :
  PosixPath.resolve (App.target ArchiveSamples.dest GuardSamples.evil) =
    ["tmp"; "dest_evil"; "x"] /\
  App.guard_ok ArchiveSamples.dest GuardSamples.evil = true.
Proof. split; reflexivity. Qed.

(** For a directory member the guard looks two levels up: a directory at
    the top of the archive is refused. *)
Example top_level_directory_refused :
  PosixPath.resolve (App.target ArchiveSamples.dest GuardSamples.sub) =
    ["tmp"; "dest"; "sub"] /\
  App.target_resolved_parent ArchiveSamples.dest GuardSamples.sub = ["tmp"] /\
  App.guard_ok ArchiveSamples.dest GuardSamples.sub = false.
Proof. repeat split; reflexivity. Qed.

(** [isdigit] accepts a superscript digit that [int] refuses. *)
Example superscript_size_raises :
  FTPClient.list_entry GuardSamples.superscript_line = Raise ValueError.
Proof. reflexivity. Qed.


(** ** The file system under [mkdir] *)

Section MkdirFacts.
Import PosixPath.

Lemma node_at_mono (fs fs' : FS) q n :
  fs ⊆ fs' -> node_at fs q = Some n -> node_at fs' q = Some n.
Proof.
  intros Hsub. destruct q as [|c q]; [done|]. simpl.
  intros Hq. by eapply lookup_weaken.
Qed.

Lemma walk_from_mono (fs fs' : FS) cur p q :
  fs ⊆ fs' -> walk_from fs cur p = Ok q -> walk_from fs' cur p = Ok q.
Proof.
  intros Hsub. revert cur. induction p as [|c p IH]; intros cur; simpl; [done|].
  destruct (node_at fs cur) as [[d|]|] eqn:Hn; try done.
  rewrite (node_at_mono fs fs' cur Directory Hsub Hn). apply IH.
Qed.

Lemma is_dir_mono (fs fs' : FS) p :
  fs ⊆ fs' -> is_dir fs p = true -> is_dir fs' p = true.
Proof.
  intros Hsub. unfold is_dir, stat, walk.
  destruct (walk_from fs [] p) as [q|e] eqn:Hw; [|done].
  rewrite (walk_from_mono fs fs' [] p q Hsub Hw). simpl.
  destruct (node_at fs q) as [[d|]|] eqn:Hn; try done.
  by rewrite (node_at_mono fs fs' q Directory Hsub Hn).
Qed.

Lemma well_formed_lookup (fs : FS) q n :
  well_formed fs -> fs !! q = Some n ->
  node_at fs (removelast q) = Some Directory.
Proof. intros Hwf Hq. exact (Hwf q n Hq). Qed.

(** Where the walk ends at a free place, the place sits in a directory. *)
Lemma walk_fresh_parent (fs : FS) p q :
  well_formed fs -> walk fs p = Ok q -> node_at fs q = None ->
  q <> [] /\ node_at fs (removelast q) = Some Directory.
Proof.
  intros Hwf Hw Hfree. unfold walk in Hw.
  destruct (decide (p = [])) as [->|Hne].
  { simpl in Hw. injection Hw as <-. done. }
  destruct (exists_last Hne) as (p' & c & ->).
  rewrite walk_from_app in Hw.
  destruct (walk_from fs [] p') as [mid|e]; [|done]. simpl in Hw.
  destruct (node_at fs mid) as [[d|]|] eqn:Hmid; try done.
  injection Hw as <-. unfold step in *.
  destruct (decide (c = "..")).
  - destruct mid as [|x mid]; [done|]. simpl in Hmid.
    rewrite (well_formed_lookup fs _ _ Hwf Hmid) in Hfree. done.
  - split; [by destruct mid|]. by rewrite removelast_last.
Qed.

Lemma insert_well_formed (fs : FS) q n :
  well_formed fs -> fs !! q = None ->
  node_at fs (removelast q) = Some Directory ->
  well_formed (<[q := n]> fs).
Proof.
  intros Hwf Hq Hpar k v Hk.
  assert (Hsub : fs ⊆ <[q := n]> fs) by (by apply insert_subseteq).
  apply (node_at_mono fs _ _ _ Hsub).
  destruct (decide (q = k)) as [->|Hne]; [done|].
  rewrite lookup_insert_ne in Hk by done. by apply (Hwf k v).
Qed.

Lemma os_mkdir_post fs p : mkdir_post fs p (os_mkdir fs p).
Proof.
  unfold mkdir_post, os_mkdir.
  destruct (walk fs p) as [q|e] eqn:Hw; [|done].
  destruct (node_at fs q) as [n|] eqn:Hq; [done|]. simpl.
  assert (Hfree : fs !! q = None) by (by destruct q).
  assert (Hsub : fs ⊆ <[q := Directory]> fs) by (by apply insert_subseteq).
  split; [done|]. split.
  - intros Hwf. destruct (walk_fresh_parent fs p q Hwf Hw Hq) as [_ Hpar].
    by apply insert_well_formed.
  - intros _. unfold is_dir, stat, walk.
    rewrite (walk_from_mono fs _ [] p q Hsub Hw). simpl.
    destruct q as [|c q]; [done|]. simpl. by rewrite lookup_insert_eq.
Qed.

Lemma mkdir_exist_ok_post fs p : mkdir_post fs p (mkdir_exist_ok fs p).
Proof.
  unfold mkdir_exist_ok. pose proof (os_mkdir_post fs p) as Hpost.
  destruct (os_mkdir fs p) as [fs' [e|]]; [|done].
  destruct e; try (destruct (is_dir fs p) eqn:Hd); by unfold mkdir_post.
Qed.

Lemma mkdir_post_trans fs fs1 p1 r1 p out :
  mkdir_post fs p1 (fs1, r1) -> mkdir_post fs1 p out -> mkdir_post fs p out.
Proof.
  intros (S1 & W1 & _) (S2 & W2 & D2). simpl in *. split; [|split].
  - by etrans.
  - auto.
  - done.
Qed.

Lemma mkdir_rev_post fs rp : mkdir_post fs (rev rp) (mkdir_rev fs rp).
Proof.
  revert fs. induction rp as [|c rp IH]; intros fs; cbn [mkdir_rev].
  - pose proof (os_mkdir_post fs (rev [])) as Hpost.
    destruct (os_mkdir fs (rev [])) as [fs' [e|]]; [|done].
    destruct e; try (destruct (is_dir fs (rev [])) eqn:Hd); by unfold mkdir_post.
  - pose proof (os_mkdir_post fs (rev (c :: rp))) as Hpost.
    destruct (os_mkdir fs (rev (c :: rp))) as [fs' [e|]]; [|done].
    destruct e; try (destruct (is_dir fs (rev (c :: rp))) eqn:Hd);
      try (by unfold mkdir_post).
    all: specialize (IH fs); destruct (mkdir_rev fs rp) as [fs1 [e1|]];
      [ destruct IH as (S1 & W1 & _); by unfold mkdir_post
      | eapply mkdir_post_trans; [exact IH | apply mkdir_exist_ok_post] ].
Qed.

Lemma mkdir_parents_post fs p : mkdir_post fs p (mkdir_parents fs p).
Proof.
  unfold mkdir_parents. rewrite <- (rev_involutive p) at 1. apply mkdir_rev_post.
Qed.

(** A directory that is there is made again without any change. *)
Lemma mkdir_parents_existing fs p :
  is_dir fs p = true -> mkdir_parents fs p = (fs, None).
Proof.
  intros Hd. unfold mkdir_parents.
  assert (Hmk : os_mkdir fs p = (fs, Some FileExistsError)).
  { unfold os_mkdir. unfold is_dir, stat in Hd.
    destruct (walk fs p) as [q|e]; [|done]. simpl in Hd.
    by destruct (node_at fs q). }
  rewrite <- (rev_involutive p) in Hmk, Hd.
  destruct (rev p) as [|x rp]; cbn [mkdir_rev]; by rewrite Hmk, Hd.
Qed.

End MkdirFacts.

(** ** More on the extractor *)

Section ExtractorFrame.
Import PosixPath App.

Lemma in_place_careful : careful extract_in_place.
Proof.
  intros fs dest_dir m fs' r Hwf Hpar Hex. unfold extract_in_place.
  rewrite (mkdir_parents_existing fs _ Hpar).
  unfold exists_, stat in Hex.
  destruct (walk fs (target dest_dir m)) as [q|e] eqn:Hw.
  2: { intros [= <- <-]. done. }
  simpl in Hex. destruct (node_at fs q) as [n|] eqn:Hq; [done|].
  intros [= <- <-].
  destruct (walk_fresh_parent fs _ q Hwf Hw Hq) as [Hne Hp].
  assert (Hfree : fs !! q = None) by (by destruct q).
  split; [by apply insert_subseteq | by apply insert_well_formed].
Qed.

Variable rf_extract : FS -> Path -> Member -> FS * option PyExc.

Lemma extract_member_keeps fs dest_dir m fs' r :
  careful rf_extract -> well_formed fs ->
  extract_member rf_extract fs dest_dir false m = (fs', r) ->
  fs ⊆ fs' /\ well_formed fs'.
Proof.
  intros Hrf Hwf. unfold extract_member.
  destruct (guard_ok dest_dir m); simpl; [|by intros [= <- <-]].
  destruct (is_dir_member m).
  { pose proof (mkdir_parents_post fs (target dest_dir m)) as (S & W & _).
    intros H. rewrite H in S, W. simpl in *. auto. }
  pose proof (mkdir_parents_post fs (parent (target dest_dir m))) as (S & W & D).
  destruct (mkdir_parents fs (parent (target dest_dir m))) as [fs1 [e|]];
    simpl in *; [intros [= <- <-]; auto|].
  rewrite andb_false_r, orb_false_r.
  destruct (exists_ fs1 (target dest_dir m)) eqn:Hex; simpl;
    [intros [= <- <-]; auto|].
  intros H. destruct (Hrf fs1 dest_dir m fs' r (W Hwf) (D eq_refl) Hex H) as [S' W'].
  split; [by etrans | done].
Qed.

End ExtractorFrame.

(** X1.  With [overwrite] false, and a backend that only adds nodes when it
    is run for a target that does not exist, [_extract_rar] never changes or
    removes what was in the file system before the call, whether it returns
    or raises: every file is still there with its bytes, every directory
    is still a directory. *)
Theorem no_overwrite_keeps_everything
    (rf_extract : PosixPath.FS -> list string -> App.Member -> PosixPath.FS * option PyExc)
    (fs fs' : PosixPath.FS) (members : list App.Member) (dest_dir : list string)
    (r : option PyExc) :
  careful rf_extract ->
  well_formed fs ->
  App._extract_rar rf_extract fs members dest_dir false = (fs', r) ->
  fs ⊆ fs' /\ well_formed fs' /\
  (forall q d, fs !! q = Some (PosixPath.File d) -> fs' !! q = Some (PosixPath.File d)).
Proof.
  intros Hrf. revert fs. induction members as [|m ms IH]; intros fs Hwf; simpl.
  - intros [= <- <-]. repeat split; auto.
  - destruct (App.extract_member rf_extract fs dest_dir false m) as [fs1 r1] eqn:Hm.
    destruct (extract_member_keeps rf_extract fs dest_dir m fs1 r1 Hrf Hwf Hm)
      as [S1 W1].
    destruct r1 as [e|].
    + intros [= <- <-]. repeat split; auto.
      intros q d Hq. by eapply lookup_weaken.
    + intros H. destruct (IH fs1 W1 H) as (S2 & W2 & _).
      assert (fs ⊆ fs') by (by etrans).
      repeat split; auto. intros q d Hq. by eapply lookup_weaken.
Qed.

Lemma no_overwrite_keeps_everything_witness :
  (App._extract_rar App.extract_in_place ArchiveSamples.disk
     [ArchiveSamples.foo; ArchiveSamples.readme; ArchiveSamples.passwd]
     ArchiveSamples.dest false).1 !! ["tmp"; "dest"; "foo.txt"] =
  Some (PosixPath.File ["o"%byte; "l"%byte; "d"%byte]).
Proof.
  destruct (App._extract_rar App.extract_in_place ArchiveSamples.disk
     [ArchiveSamples.foo; ArchiveSamples.readme; ArchiveSamples.passwd]
     ArchiveSamples.dest false) as [fs' r] eqn:Hrun.
  destruct (no_overwrite_keeps_everything App.extract_in_place ArchiveSamples.disk
              fs' [ArchiveSamples.foo; ArchiveSamples.readme; ArchiveSamples.passwd]
              ArchiveSamples.dest r in_place_careful) as (_ & _ & H).
  - apply (bool_decide_unpack _). vm_compute. exact I.
  - exact Hrun.
  - apply H. reflexivity.
Defined.



(** X3.  A directory member that is extracted without error leaves its
    directory in place; nothing that existed before is changed, a
    well-formed file system stays well formed, and extracting the same
    member once more changes nothing. *)
Theorem directory_member_made
    (rf_extract : PosixPath.FS -> list string -> App.Member -> PosixPath.FS * option PyExc)
    (fs fs' : PosixPath.FS) (m : App.Member) (dest_dir : list string)
    (overwrite : bool) :
  App.is_dir_member m = true ->
  App.extract_member rf_extract fs dest_dir overwrite m = (fs', None) ->
  PosixPath.is_dir fs' (App.target dest_dir m) = true /\
  fs ⊆ fs' /\
  (well_formed fs -> well_formed fs') /\
  App.extract_member rf_extract fs' dest_dir overwrite m = (fs', None).
Proof.
  intros Hdir. unfold App.extract_member.
  destruct (App.guard_ok dest_dir m); simpl; [|done]. rewrite Hdir.
  intros H.
  pose proof (mkdir_parents_post fs (App.target dest_dir m)) as (S & W & D).
  rewrite H in S, W, D. simpl in *.
  repeat split; auto. by apply mkdir_parents_existing, D.
Qed.

Lemma directory_member_made_witness :
  let fs' := (App.extract_member App.extract_in_place ArchiveSamples.disk
                ArchiveSamples.dest false GuardSamples.pictures).1 in
  PosixPath.is_dir fs' ["tmp"; "dest"; "docs"; "img"] = true /\
  ArchiveSamples.disk ⊆ fs'.
Proof.
  destruct (directory_member_made App.extract_in_place ArchiveSamples.disk
              (App.extract_member App.extract_in_place ArchiveSamples.disk
                 ArchiveSamples.dest false GuardSamples.pictures).1
              GuardSamples.pictures ArchiveSamples.dest false)
    as (H1 & H2 & _); [reflexivity | reflexivity |].
  split; [exact H1 | exact H2].
Defined.

(** ** What the guard lets through *)

Section GuardText.
Import PosixPath App.


Lemma removelast_not_inside (d : Path) : d <> [] -> ~ inside d (removelast d).
Proof.
  intros Hne [r Hr]. destruct (exists_last Hne) as (d' & x & ->).
  rewrite removelast_last in Hr. apply (f_equal length) in Hr.
  rewrite !length_app in Hr. simpl in Hr. lia.
Qed.

Lemma removelast_not_lookalike (d : Path) : ~ lookalike d (removelast d).
Proof.
  intros (d0 & c & s & rest & -> & _ & Hr).
  rewrite removelast_last in Hr. apply (f_equal length) in Hr.
  rewrite length_app in Hr. simpl in Hr. lia.
Qed.

End GuardText.



(** X5.  A directory member that sits directly in the extraction directory
    is refused by the guard, unless the extraction directory is the root:
    the guard looks at the parent of the directory that will hold the
    member, and that parent is outside. *)
Theorem top_directory_member_refused
    (rf_extract : PosixPath.FS -> list string -> App.Member -> PosixPath.FS * option PyExc)
    (fs : PosixPath.FS) (m : App.Member) (dest_dir : list string) (c : string)
    (overwrite : bool) :
  Forall plain_part dest_dir ->
  PosixPath.resolve dest_dir <> [] ->
  App.is_dir_member m = true ->
  App.target dest_dir m = dest_dir ++ [c] ->
  App.guard_ok dest_dir m = false /\
  App.extract_member rf_extract fs dest_dir overwrite m =
    (fs, Some (UnsafePath (App.filename m))).
Proof.
  intros Hd Hroot Hdir Ht.
  assert (Hp : App.target_resolved_parent dest_dir m =
               removelast (PosixPath.resolve dest_dir)).
  { unfold App.target_resolved_parent, PosixPath.parent.
    by rewrite Hdir, Ht, removelast_last. }
  assert (Hg : App.guard_ok dest_dir m = false).
  { apply guard_rejects; [done | |]; rewrite Hp.
    - by apply removelast_not_inside.
    - apply removelast_not_lookalike. }
  split; [done | by apply rejected_member].
Qed.

Lemma top_directory_member_refused_witness :
  App._extract_rar App.extract_in_place ArchiveSamples.disk [GuardSamples.sub]
    ArchiveSamples.dest true =
  (ArchiveSamples.disk, Some (UnsafePath "sub/")).
Proof.
  destruct (top_directory_member_refused App.extract_in_place ArchiveSamples.disk
              GuardSamples.sub ArchiveSamples.dest "sub" true) as [_ H].
  - repeat constructor; try discriminate; by vm_compute.
  - discriminate.
  - reflexivity.
  - reflexivity.
  - cbn [App._extract_rar]. by rewrite H.
Defined.

(** ** More on listings *)

Section ListingFacts.
Import FTPClient.

Lemma int_raises_value_error s e : Py.int s = Raise e -> e = ValueError.
Proof.
  unfold Py.int. intros H. repeat case_match; by simplify_eq.
Qed.

Lemma collect_raise {A B} (f : A -> result B) (l : list A) x e :
  x ∈ l -> f x = Raise e ->
  (forall y e', f y = Raise e' -> e' = e) ->
  collect f l = Raise e.
Proof.
  intros Hin Hx Hall. induction l as [|y l IH]; [by apply elem_of_nil in Hin|].
  simpl. destruct (f y) as [b|e'] eqn:Hy.
  - apply elem_of_cons in Hin as [->|Hin]; [congruence|].
    cbn. by rewrite (IH Hin).
  - cbn. by rewrite (Hall y e' Hy).
Qed.

Lemma collect_Forall {A B} (f : A -> result B) (P : B -> Prop) (l : list A) bs :
  (forall a b, f a = Ok b -> P b) ->
  collect f l = Ok bs -> Forall P bs.
Proof.
  intros Hf. revert bs. induction l as [|a l IH]; intros bs; simpl.
  - intros [= <-]. constructor.
  - destruct (f a) as [b|e] eqn:Ha; [|done]. cbn.
    destruct (collect f l) as [bs'|e]; [|done]. cbn.
    intros [= <-]. constructor; [by eapply Hf | by apply IH].
Qed.

Lemma digit_val_nonneg c : Py.is_ascii_digit c = true -> 0 <= Py.digit_val c.
Proof.
  unfold Py.is_ascii_digit, Py.between, Py.digit_val.
  intros [H1 _]%andb_prop. apply N.leb_le in H1. lia.
Qed.

Lemma int_digits_nonneg prev l vs :
  Py.int_digits prev l = Some vs -> Forall (fun v => 0 <= v) vs.
Proof.
  revert prev vs. induction l as [|c l IH]; intros prev vs; simpl.
  - destruct prev; [|done]. intros [= <-]. constructor.
  - destruct (Py.is_ascii_digit c) eqn:Hc.
    + destruct (Py.int_digits true l) as [ds|] eqn:Hds; [|done].
      intros [= <-]. constructor; [by apply digit_val_nonneg | by eapply IH].
    + destruct (Ascii.eqb c "_" && prev); [|done].
      destruct l as [|d l']; [done|].
      destruct (Py.is_ascii_digit d); [|done]. apply IH.
Qed.

Lemma digits_value_nonneg vs :
  Forall (fun v => 0 <= v) vs -> 0 <= Py.digits_value vs.
Proof.
  unfold Py.digits_value.
  assert (Hgen : forall acc, 0 <= acc -> Forall (fun v => 0 <= v) vs ->
            0 <= fold_left (fun a d => 10 * a + d) vs acc).
  { induction vs as [|v vs IH]; intros acc Hacc Hvs; [done|].
    apply Forall_cons in Hvs as [Hv Hvs]. simpl. apply IH; [lia | done]. }
  intros H. apply Hgen; [lia | done].
Qed.

Lemma isdigit_char_plain c :
  Py.isdigit_char c = true ->
  Py.int_blank c = false /\ Ascii.eqb c "-" = false /\ Ascii.eqb c "+" = false.
Proof.
  intros H. repeat split.
  - revert H. unfold Py.isdigit_char, Py.is_ascii_digit, Py.int_blank, Py.between.
    rewrite !orb_true_iff, andb_true_iff, !N.leb_le, !N.eqb_eq. intros H.
    repeat (apply orb_false_intro); try apply andb_false_iff;
      rewrite ?N.leb_gt, ?N.eqb_neq; lia.
  - apply Ascii.eqb_neq. intros ->. vm_compute in H. discriminate.
  - apply Ascii.eqb_neq. intros ->. vm_compute in H. discriminate.
Qed.

(** [int] of a string that [isdigit] accepts is not negative. *)
Lemma int_isdigit_nonneg s n :
  Py.isdigit s = true -> Py.int s = Ok n -> 0 <= n.
Proof.
  unfold Py.isdigit. intros [Hne Hall]%andb_prop.
  apply negb_true_iff, String.eqb_neq in Hne.
  rewrite forallb_forall in Hall.
  assert (Hsp : Forall (fun c => Py.int_blank c = false) (Py.chars s)).
  { apply Forall_forall. intros c Hc%list_elem_of_In.
    by apply isdigit_char_plain, Hall. }
  unfold Py.int, Py.strip. rewrite (lstrip_id _ Hsp), (rstrip_id _ Hsp).
  destruct s as [|c s]; [done|]. cbn [Py.chars String.list_ascii_of_string].
  destruct (isdigit_char_plain c) as (_ & -> & ->); [apply Hall; by left|].
  destruct (Py.int_digits false _) as [vs|] eqn:Hvs; [|done].
  destruct (_ <? _)%nat; [done|]. intros [= <-].
  by eapply digits_value_nonneg, int_digits_nonneg.
Qed.

Lemma list_entry_plain line x :
  list_entry line = Ok x ->
  (type x = "dir" \/ type x = "file") /\ 0 <= size x.
Proof.
  unfold list_entry. destruct (_ <? _)%nat.
  { intros [= <-]. simpl. split; [by right | done]. }
  destruct (Py.split 8 line)
    as [|mode [|t2 [|t3 [|t4 [|sz [|month [|day [|toy [|nm [|y l]]]]]]]]]];
    try done.
  destruct (Py.isdigit sz) eqn:Hd.
  - destruct (Py.int sz) as [n|e] eqn:Hn; [|done]. cbn. intros [= <-]. simpl.
    split; [destruct (Py.startswith mode "d"); auto|].
    by eapply int_isdigit_nonneg.
  - cbn. intros [= <-]. simpl.
    split; [destruct (Py.startswith mode "d"); auto | done].
Qed.

End ListingFacts.

(** ** The order of a listing *)

Section ListingOrder.



End ListingOrder.



(** X6.  In MLSD mode one record whose size fact is not empty and is not a
    number for [int] makes the whole of [listdir] raise [ValueError]: no
    entry is returned and LIST is not tried. *)
Theorem mlsd_bad_size_fails (self : FTPClient.Client) (c : FTPClient.FTP)
    (path : option string) (p : string)
    (records : list (string * gmap string string))
    (nm : string) (facts : gmap string string) (s : string) :
  FTPClient.ftp self = Some c ->
  p = default (FTPClient.current_path self) path ->
  FTPClient.mlsd c p = Ok records ->
  (nm, facts) ∈ records ->
  facts !! "size" = Some s ->
  s <> "" ->
  Py.int s = Raise ValueError ->
  FTPClient.listdir self path =
    ([FTPClient.EvMlsd (FTPClient.conn_id c) p], Raise ValueError).
Proof.
  intros Hc -> Hm Hin Hs Hne Hint. unfold FTPClient.listdir.
  rewrite Hc, Hm.
  rewrite (collect_raise FTPClient.mlsd_entry records (nm, facts) ValueError Hin);
    [done| |].
  - unfold FTPClient.mlsd_entry. rewrite Hs.
    apply String.eqb_neq in Hne. by rewrite Hne, Hint.
  - intros [nm' facts'] e'. unfold FTPClient.mlsd_entry.
    destruct (facts' !! "size") as [s'|]; [|done].
    destruct (String.eqb s' ""); [done|].
    destruct (Py.int s') as [n|e] eqn:He; [done|].
    cbn. intros [= <-]. by eapply int_raises_value_error.
Qed.

Lemma mlsd_bad_size_fails_witness :
  FTPClient.listdir Samples.odd_client None =
    ([FTPClient.EvMlsd 3 "/"], Raise ValueError).
Proof.
  eapply (mlsd_bad_size_fails Samples.odd_client Samples.odd_server None "/"
            _ "b.rar" {[ "type" := "file"; "size" := "1.5k" ]} "1.5k").
  - reflexivity.
  - reflexivity.
  - reflexivity.
  - apply elem_of_cons. right. apply elem_of_cons. by left.
  - reflexivity.
  - discriminate.
  - reflexivity.
Defined.

(** X7.  A listing that comes from the LIST fallback has, after the "go up"
    entry, only entries of type "dir" or "file", and none with a negative
    size. *)
Theorem legacy_entries_plain (self : FTPClient.Client) (c : FTPClient.FTP)
    (path : option string) (p : string) (e : PyExc)
    (evs : list FTPClient.Event) (out : list FTPClient.Entry) :
  FTPClient.ftp self = Some c ->
  p = default (FTPClient.current_path self) path ->
  FTPClient.mlsd c p = Raise e ->
  FTPClient.listdir self path = (evs, Ok out) ->
  exists rest,
    out = FTPClient.up_entry :: rest /\
    Forall (fun x => (FTPClient.type x = "dir" \/ FTPClient.type x = "file") /\
                     0 <= FTPClient.size x) rest.
Proof.
  intros Hc -> Hm. unfold FTPClient.listdir. rewrite Hc, Hm.
  destruct (FTPClient.falls_back e); [|done].
  destruct (FTPClient.retrlines c _) as [lines|e']; [|done].
  destruct (collect FTPClient.list_entry lines) as [entries|e'] eqn:Hcol; [|done].
  cbn. intros [= _ <-]. eexists. split; [reflexivity|].
  pose proof (collect_Forall _ _ _ _ list_entry_plain Hcol) as Hall.
  apply Forall_app. split; apply sort_by_Forall;
    apply Forall_forall; intros x [_ [_ Hx]%list_elem_of_filter]%list_elem_of_filter;
    rewrite Forall_forall in Hall; by apply Hall.
Qed.

Lemma legacy_entries_plain_witness :
  exists out rest,
    (FTPClient.listdir Samples.legacy_client None).2 = Ok out /\
    out = FTPClient.up_entry :: rest /\
    Forall (fun x => (FTPClient.type x = "dir" \/ FTPClient.type x = "file") /\
                     0 <= FTPClient.size x) rest.
Proof.
  destruct (FTPClient.listdir Samples.legacy_client None) as [evs [out|e]] eqn:Hrun;
    [|vm_compute in Hrun; discriminate].
  destruct (legacy_entries_plain Samples.legacy_client Samples.legacy_server None
              "/pub" error_perm evs out eq_refl eq_refl eq_refl Hrun) as (rest & H).
  by exists out, rest.
Defined.

(** ** More on sessions and downloads *)

(** X8.  After [close] the client has no handle and the same current path;
    a second [close] sends nothing and changes nothing; [listdir],
    [download_file] and [cwd] then raise [AssertionError] without sending a
    command and without touching the local file. *)
Theorem closed_session_refuses (self : FTPClient.Client) :
  let s := (FTPClient.close self).2 in
  FTPClient.ftp s = None /\
  FTPClient.current_path s = FTPClient.current_path self /\
  FTPClient.close s = ([], s) /\
  (forall path, FTPClient.listdir s path = ([], Raise AssertionError)) /\
  (forall local remote_path cb blocksize rest,
     FTPClient.download_file s local remote_path cb blocksize rest =
       {| FTPClient.events := []; FTPClient.local_file := local;
          FTPClient.calls := []; FTPClient.outcome := Raise AssertionError |}) /\
  (forall cwd_reply pwd_after path,
     FTPClient.cwd s cwd_reply pwd_after path = (s, Some AssertionError)).
Proof.
  unfold FTPClient.close.
  destruct (FTPClient.ftp self) as [c|] eqn:Hc; simpl.
  - repeat split.
  - unfold FTPClient.listdir, FTPClient.download_file, FTPClient.cwd.
    rewrite Hc. repeat split.
Qed.

(** X9.  [connect] returns [True] exactly when the connection, the login and
    the TYPE I command all succeed.  A failing PWD does not make it fail: the
    current path is then "/" , and otherwise the directory the server names.
    When [connect] raises, the current path is still the one of the session
    before. *)
Theorem connect_outcome (self : FTPClient.Client) (new : FTPClient.FTP)
    (host : string) (port : Z) (user password : string) (timeout : Z) :
  let '(evs, self', r) :=
    FTPClient.connect self new host port user password timeout in
  (r = Ok true <->
     FTPClient.connect_reply new = None /\ FTPClient.login_reply new = None /\
     FTPClient.voidcmd_reply new "TYPE I" = None) /\
  (r = Ok true ->
     FTPClient.current_path self' =
       match FTPClient.pwd_reply new with Ok p => p | Raise _ => "/" end) /\
  (r <> Ok true ->
     FTPClient.current_path self' = FTPClient.current_path self /\
     FTPClient.ftp self' = None).
Proof.
  unfold FTPClient.connect.
  assert (Hcl : FTPClient.current_path (FTPClient.close self).2 =
                FTPClient.current_path self /\
                FTPClient.ftp (FTPClient.close self).2 = None).
  { unfold FTPClient.close. by destruct (FTPClient.ftp self) eqn:Hf. }
  destruct (FTPClient.close self) as [ev0 self1]. simpl in Hcl.
  destruct Hcl as [Hpath Hnone].
  destruct (FTPClient.connect_reply new) as [e1|];
    [|destruct (FTPClient.login_reply new) as [e2|];
      [|destruct (FTPClient.voidcmd_reply new "TYPE I") as [e3|]]];
    simpl; (split; [split; [done | by intros (? & ? & ?)]|]);
    split; done.
Qed.

Section DownloadFacts.
Import FTPClient.

Lemma delivered_until_raise blocks e more :
  Forall (fun b => b <> []) blocks ->
  delivered (map Ok blocks ++ Raise e :: more) = blocks.
Proof.
  induction 1 as [|b bs Hb _ IH]; [done|].
  destruct b as [|x b]; [done|]. simpl. by rewrite IH.
Qed.

Lemma recv_loop_until_raise callback blocks e more w :
  Forall (fun b => b <> []) blocks ->
  (recv_loop callback (map Ok blocks ++ Raise e :: more) w).2 = Some e.
Proof.
  intros H. revert w. induction H as [|b bs Hb _ IH]; intros w; [done|].
  destruct b as [|x b]; [done|]. simpl. apply IH.
Qed.

End DownloadFacts.

(** X10.  When the server refuses the transfer, [download_file] raises the
    server's exception and calls no callback.  A resumed download
    ([rest > 0]) then leaves the local file with the bytes it had (an absent
    file is created empty); a download from the start leaves it empty,
    whatever it held before. *)
Theorem refused_download (self : FTPClient.Client) (c : FTPClient.FTP)
    (local : option (list byte)) (remote_path : string) (cb : bool)
    (blocksize rest : Z) (e : PyExc) :
  FTPClient.ftp self = Some c ->
  FTPClient.transfercmd
    (FTPClient.retrbinary c ("RETR " +:+ remote_path)
       (if 0 <? rest then Some rest else None)) = Some e ->
  let d := FTPClient.download_file self local remote_path cb blocksize rest in
  FTPClient.outcome d = Raise e /\
  FTPClient.calls d = [] /\
  FTPClient.local_file d = Some (if 0 <? rest then default [] local else []).
Proof.
  intros Hc He. unfold FTPClient.download_file, FTPClient.run_retrbinary.
  rewrite Hc, He. done.
Qed.

Lemma refused_download_witness :
  let d := FTPClient.download_file Samples.legacy_client (Some (Samples.block 10))
             "/pub/zeta.rar" true 65536 0 in
  FTPClient.outcome d = Raise error_perm /\
  FTPClient.calls d = [] /\
  FTPClient.local_file d = Some [].
Proof.
  apply (refused_download Samples.legacy_client Samples.legacy_server
           (Some (Samples.block 10)) "/pub/zeta.rar" true 65536 0 error_perm);
    reflexivity.
Defined.

(** X11.  When the connection breaks after some blocks, [download_file]
    raises the exception of the failing read, the callback has been called
    once for each block received, and the local file keeps all the bytes
    written: the content it was opened with followed by those blocks. *)
Theorem broken_download_keeps_bytes (self : FTPClient.Client) (c : FTPClient.FTP)
    (local : option (list byte)) (remote_path : string) (blocksize rest : Z)
    (blocks : list (list byte)) (e : PyExc) (more : list (result (list byte))) :
  FTPClient.ftp self = Some c ->
  let reply := FTPClient.retrbinary c ("RETR " +:+ remote_path)
                 (if 0 <? rest then Some rest else None) in
  FTPClient.transfercmd reply = None ->
  FTPClient.recvs reply = map Ok blocks ++ Raise e :: more ->
  Forall (fun b => b <> []) blocks ->
  let d := FTPClient.download_file self local remote_path true blocksize rest in
  FTPClient.outcome d = Raise e /\
  length (FTPClient.calls d) = length blocks /\
  FTPClient.local_file d =
    Some ((if 0 <? rest then default [] local else []) ++ concat blocks).
Proof.
  intros Hc reply Ht Hr Hne d.
  destruct (download_file_spec self c local remote_path true blocksize rest Hc)
    as [Hfile Hcalls].
  fold reply in Hfile, Hcalls. fold d in Hfile, Hcalls.
  unfold FTPClient.received in Hfile, Hcalls.
  rewrite Ht, Hr, delivered_until_raise in Hfile, Hcalls by done.
  split; [|split; [|done]].
  - unfold d, FTPClient.download_file, FTPClient.run_retrbinary.
    rewrite Hc. fold reply. rewrite Ht, Hr.
    pose proof (recv_loop_until_raise
      (FTPClient._writer true
         match FTPClient.size_reply c remote_path with Ok n => n | Raise _ => None end)
      blocks e more
      {| FTPClient.f := if 0 <? rest then default [] local else [];
         FTPClient.bytes_done := rest; FTPClient.progress := [] |} Hne) as Herr.
    destruct (FTPClient.recv_loop _ _ _) as [w err]. simpl in Herr. subst err. done.
  - by rewrite Hcalls, length_map, running_length.
Qed.

Lemma broken_download_keeps_bytes_witness :
  let d := FTPClient.download_file Samples.odd_client None "/a.rar" true 65536 0 in
  FTPClient.outcome d = Raise OSError_ /\
  length (FTPClient.calls d) = 1%nat /\
  FTPClient.local_file d = Some (Samples.block 10).
Proof.
  apply (broken_download_keeps_bytes Samples.odd_client Samples.odd_server None
           "/a.rar" 65536 0 [Samples.block 10] OSError_ []);
    try reflexivity.
  repeat constructor. discriminate.
Defined.

(** X12.  The download that [on_download_extract] starts, against a server
    that sends the file from the offset it is asked for.  After "no", or
    when there was no local file, the local file ends as the remote file.
    After "yes" it ends as the old local bytes followed by the remote bytes
    from that length on, with no check that the old bytes match; it is the
    remote file when the old bytes are a prefix of it.  After "cancel"
    nothing is downloaded. *)
Theorem resumed_download_content (self : FTPClient.Client) (c : FTPClient.FTP)
    (local : option (list byte)) (ans : option bool) (remote_path : string)
    (content : list byte) :
  FTPClient.ftp self = Some c ->
  (forall rest_arg,
     concat (FTPClient.received
               (FTPClient.retrbinary c ("RETR " +:+ remote_path) rest_arg)) =
     drop (match rest_arg with Some r => Z.to_nat r | None => O end) content) ->
  match local, ans with
  | Some _, None => App.start_download self local ans remote_path = None
  | Some old, Some true =>
      exists d, App.start_download self local ans remote_path = Some d /\
        FTPClient.local_file d = Some (old ++ drop (length old) content) /\
        (old `prefix_of` content -> FTPClient.local_file d = Some content)
  | _, _ =>
      exists d, App.start_download self local ans remote_path = Some d /\
        FTPClient.local_file d = Some content
  end.
Proof.
  intros Hc Hsrv.
  assert (Hfresh : forall loc,
    FTPClient.local_file
      (FTPClient.download_file self loc remote_path true (64 * 1024) 0) =
    Some content).
  { intros loc.
    destruct (download_file_spec self c loc remote_path true (64 * 1024) 0 Hc)
      as [Hfile _].
    rewrite Hfile. change (0 <? 0) with false. cbv iota.
    by rewrite (Hsrv None). }
  unfold App.start_download, App.resume_choice.
  destruct local as [old|]; [|eexists; split; [reflexivity | apply Hfresh]].
  destruct ans as [[|]|]; [| eexists; split; [reflexivity | apply Hfresh] | done].
  eexists. split; [reflexivity|].
  destruct (download_file_spec self c (Some old) remote_path true (64 * 1024)
              (Z.of_nat (length old)) Hc) as [Hfile _].
  assert (Hfinal : FTPClient.local_file
            (FTPClient.download_file self (Some old) remote_path true (64 * 1024)
               (Z.of_nat (length old))) = Some (old ++ drop (length old) content)).
  { rewrite Hfile. destruct (Z.ltb_spec 0 (Z.of_nat (length old))) as [Hpos|Hz].
    - rewrite (Hsrv (Some _)). simpl. by rewrite Nat2Z.id.
    - destruct old; [|simpl in Hz; lia]. by rewrite (Hsrv None). }
  split; [exact Hfinal|].
  intros [tail ->]. rewrite Hfinal. by rewrite drop_app_length.
Qed.

Lemma resumed_download_content_witness :
  exists d,
    App.start_download
      {| FTPClient.ftp := Some (Samples.file_server (Samples.block 10));
         FTPClient.current_path := "/" |}
      (Some (Samples.block 4)) (Some true) "/a.rar" = Some d /\
    FTPClient.local_file d = Some (Samples.block 10).
Proof.
  destruct (resumed_download_content
              {| FTPClient.ftp := Some (Samples.file_server (Samples.block 10));
                 FTPClient.current_path := "/" |}
              (Samples.file_server (Samples.block 10))
              (Some (Samples.block 4)) (Some true) "/a.rar" (Samples.block 10)
              eq_refl) as (d & Hd & _ & Hp).
  - intros rest_arg. unfold FTPClient.received. simpl.
    destruct (drop _ _) as [|b bs]; [done|]. simpl. by rewrite app_nil_r.
  - exists d. split; [exact Hd|]. apply Hp. by exists (Samples.block 6).
Defined.

(** ** Remote paths in the browser *)

Section RemotePaths.

Lemma chars_app a b : Py.chars (a +:+ b) = Py.chars a ++ Py.chars b.
Proof. induction a as [|x a IH]; [done|]. rewrite app_cons. simpl. by f_equal. Qed.











Lemma replace_char_app old new a b :
  Py.replace_char old new (a +:+ b) =
  Py.replace_char old new a +:+ Py.replace_char old new b.
Proof. induction a as [|x a IH]; [done|]. rewrite app_cons. simpl. by rewrite IH. Qed.

Lemma lower_app a b : Py.lower (a +:+ b) = Py.lower a +:+ Py.lower b.
Proof. induction a as [|x a IH]; [done|]. rewrite app_cons. simpl. by rewrite IH. Qed.

Lemma lower_replace s :
  Py.lower (Py.replace_char "\" "/" s) = Py.replace_char "\" "/" (Py.lower s).
Proof.
  induction s as [|x s IH]; [done|]. simpl. rewrite IH. f_equal.
  by destruct x as [[] [] [] [] [] [] [] []].
Qed.

Lemma endswith_refl s : Py.endswith s s = true.
Proof. destruct s; cbn [Py.endswith]; by rewrite String.eqb_refl. Qed.

Lemma endswith_app a b suffix :
  Py.endswith b suffix = true -> Py.endswith (a +:+ b) suffix = true.
Proof.
  intros Hb. induction a as [|x a IH]; [done|].
  rewrite app_cons. cbn [Py.endswith]. rewrite IH. by destruct (String.eqb _ _).
Qed.

Lemma endswith_split s suffix :
  Py.endswith s suffix = true -> exists pre, s = pre +:+ suffix.
Proof.
  induction s as [|x s IH]; cbn [Py.endswith].
  - destruct (String.eqb_spec "" suffix) as [<-|]; [by exists "" | done].
  - destruct (String.eqb_spec (String x s) suffix) as [<-|]; [by exists ""|].
    intros [pre ->]%IH. by exists (String x pre).
Qed.

Lemma join_tail a b : exists pre, OsPath.join a b = pre +:+ b.
Proof.
  unfold OsPath.join. destruct (Py.startswith b "/"); [by exists ""|].
  destruct (_ || _); [by exists a|].
  exists (a +:+ "/"). by rewrite app_assoc_str.
Qed.

End RemotePaths.


Section UpPath.

Lemma length_app_str a b :
  String.length (a +:+ b) = (String.length a + String.length b)%nat.
Proof. induction a as [|x a IH]; [done|]. rewrite app_cons. simpl. by rewrite IH. Qed.

Lemma rstrip_char_prefix c s : exists t, s = Py.rstrip_char c s +:+ t.
Proof.
  induction s as [|x s [t IH]]; [by exists ""|]. cbn [Py.rstrip_char].
  destruct (Py.rstrip_char c s) as [|y r] eqn:Hr.
  - rewrite app_nil_left in IH. subst t.
    destruct (Ascii.eqb x c); [by exists (String x s) | by exists s].
  - exists t. rewrite app_cons. by f_equal.
Qed.

Lemma upto_last_sep_prefix s : exists t, s = OsPath.upto_last_sep s +:+ t.
Proof.
  induction s as [|x s [t IH]]; [by exists ""|]. cbn [OsPath.upto_last_sep].
  destruct (OsPath.upto_last_sep s) as [|y r] eqn:Hr.
  - rewrite app_nil_left in IH. subst t.
    destruct (Ascii.eqb x "/"); [by exists s | by exists (String x s)].
  - exists t. rewrite app_cons. by f_equal.
Qed.

Lemma rstrip_char_idem c s :
  Py.rstrip_char c (Py.rstrip_char c s) = Py.rstrip_char c s.
Proof.
  induction s as [|x s IH]; [done|]. cbn [Py.rstrip_char].
  destruct (Py.rstrip_char c s) as [|y r] eqn:Hr.
  - destruct (Ascii.eqb x c) eqn:Hx; [done|]. cbn [Py.rstrip_char]. by rewrite Hx.
  - cbn [Py.rstrip_char] in *. by rewrite IH.
Qed.

Lemma upto_last_sep_shorter s :
  Py.rstrip_char "/" s = s -> s <> "" ->
  (String.length (OsPath.upto_last_sep s) < String.length s)%nat.
Proof.
  induction s as [|x s IH]; [done|]. intros Hs _.
  cbn [Py.rstrip_char] in Hs. cbn [OsPath.upto_last_sep].
  destruct (Py.rstrip_char "/" s) as [|y r] eqn:Hr.
  - destruct (Ascii.eqb x "/") eqn:Hx; [done|].
    injection Hs as <-. simpl. lia.
  - injection Hs as Hs.
    assert (Hlt : (String.length (OsPath.upto_last_sep s) < String.length s)%nat).
    { apply IH; [exact Hs | by rewrite <- Hs]. }
    destruct (OsPath.upto_last_sep s) as [|z h].
    + destruct (Ascii.eqb x "/"); simpl in *; lia.
    + simpl in *. lia.
Qed.

Lemma dirname_prefix p : exists t, p = OsPath.dirname p +:+ t.
Proof.
  unfold OsPath.dirname. destruct (upto_last_sep_prefix p) as [t Ht].
  destruct (_ && _); [|by exists t].
  destruct (rstrip_char_prefix "/" (OsPath.upto_last_sep p)) as [t' Ht'].
  exists (t' +:+ t). rewrite <- app_assoc_str, <- Ht'. exact Ht.
Qed.

Lemma dirname_length p :
  (String.length (OsPath.dirname p) <= String.length (OsPath.upto_last_sep p))%nat.
Proof.
  unfold OsPath.dirname. destruct (_ && _); [|lia].
  destruct (rstrip_char_prefix "/" (OsPath.upto_last_sep p)) as [t Ht].
  rewrite Ht at 2. rewrite length_app_str. lia.
Qed.

End UpPath.

(** X14.  The "up" row never leads to an empty path.  It leads to "/" , or
    to a path that the current path begins with and that is shorter than it;
    from a current path that begins with a slash it leads to a path that
    begins with a slash. *)
Theorem up_path_shape (cur : string) :
  App.up_path cur <> "" /\
  (App.up_path cur = "/" \/
   exists t, t <> "" /\ cur = App.up_path cur +:+ t) /\
  (Py.startswith cur "/" = true -> Py.startswith (App.up_path cur) "/" = true).
Proof.
  assert (Hshape : App.up_path cur = "/" \/
            exists t, t <> "" /\ cur = App.up_path cur +:+ t).
  { unfold App.up_path.
    destruct (String.eqb cur "/"); [by left|].
    destruct (String.eqb_spec (OsPath.dirname (Py.rstrip_char "/" cur)) "")
      as [|Hne]; [by left|].
    right. set (x := Py.rstrip_char "/" cur) in *.
    destruct (rstrip_char_prefix "/" cur) as [t1 H1]. fold x in H1.
    destruct (dirname_prefix x) as [t2 H2].
    exists (t2 +:+ t1). split.
    - assert (Hx : x <> "").
      { intros Hx. rewrite Hx in Hne. by apply Hne. }
      pose proof (upto_last_sep_shorter x (rstrip_char_idem "/" cur) Hx) as Hlt.
      pose proof (dirname_length x) as Hle.
      intros Ht. apply (f_equal String.length) in H2.
      rewrite length_app_str in H2.
      destruct t2 as [|a t2]; [simpl in H2; lia|].
      by rewrite app_cons in Ht.
    - rewrite <- app_assoc_str, <- H2. exact H1. }
  split; [|split; [exact Hshape|]].
  - unfold App.up_path. destruct (String.eqb cur "/"); [done|].
    by destruct (String.eqb_spec (OsPath.dirname (Py.rstrip_char "/" cur)) "").
  - destruct Hshape as [->|(t & _ & Ht)]; [done|].
    unfold Py.startswith. rewrite Ht at 1.
    assert (Hne : App.up_path cur <> "").
    { unfold App.up_path. destruct (String.eqb cur "/"); [done|].
      by destruct (String.eqb_spec (OsPath.dirname (Py.rstrip_char "/" cur)) ""). }
    destruct (App.up_path cur) as [|a p]; [done|].
    by rewrite app_cons, !prefix_cons, !prefix_nil.
Qed.

(** ** Row values as the widget hands them back *)

Section TkValues.

Lemma tk_eq_convert s lit :
  Py.int lit = Raise ValueError ->
  App.tk_eq (App.convert_stringval s) lit = String.eqb s lit.
Proof.
  intros Hlit. unfold App.convert_stringval.
  destruct (Py.int s) as [n|e] eqn:Hs; [|done]. simpl.
  symmetry. apply String.eqb_neq. intros ->. congruence.
Qed.

Lemma click_path_convert cur name typ :
  App.click_path cur (App.convert_stringval name) (App.convert_stringval typ) =
  if String.eqb typ "up" then Ok (App.up_path cur)
  else match Py.int name with
       | Ok _ => Raise TypeError
       | Raise _ => Ok (App.child_path cur name)
       end.
Proof.
  unfold App.click_path. rewrite tk_eq_convert by reflexivity.
  destruct (String.eqb typ "up"); [done|].
  unfold App.convert_stringval. by destruct (Py.int name).
Qed.

Lemma chars_lower s : Py.chars (Py.lower s) = map Py.lower_char (Py.chars s).
Proof. induction s as [|x s IH]; [done|]. simpl. by f_equal. Qed.

Lemma lstrip_chars s :
  exists pre, Py.chars s = pre ++ Py.chars (Py.lstrip s) /\
              Forall (fun c => Py.int_blank c = true) pre.
Proof.
  induction s as [|x s (pre & Hs & Hpre)]; [by exists []|].
  cbn [Py.lstrip]. destruct (Py.int_blank x) eqn:Hx.
  - exists (x :: pre). split; [simpl; by f_equal | by constructor].
  - by exists [].
Qed.

Lemma rstrip_chars s :
  exists post, Py.chars s = Py.chars (Py.rstrip s) ++ post /\
               Forall (fun c => Py.int_blank c = true) post.
Proof.
  induction s as [|x s (post & Hs & Hpost)]; [by exists []|].
  cbn [Py.rstrip]. destruct (Py.rstrip s) as [|y r] eqn:Hr.
  - simpl in Hs. destruct (Py.int_blank x) eqn:Hx.
    + exists (x :: post). split; [simpl; by f_equal | by constructor].
    + exists post. split; [simpl; by f_equal | done].
  - exists post. split; [|done]. simpl. f_equal. exact Hs.
Qed.

Lemma int_digits_chars prev l vs :
  Py.int_digits prev l = Some vs ->
  Forall (fun c => Py.is_ascii_digit c = true \/ c = "_"%char) l.
Proof.
  revert prev vs. induction l as [|c l IH]; intros prev vs; [by constructor|].
  cbn [Py.int_digits]. destruct (Py.is_ascii_digit c) eqn:Hc.
  - destruct (Py.int_digits true l) as [ds|] eqn:Hl; [|done].
    intros _. constructor; [by left | by eapply IH].
  - destruct (Ascii.eqb_spec c "_") as [->|]; [|done].
    destruct prev; [|done]. simpl.
    destruct l as [|d l']; [done|].
    destruct (Py.is_ascii_digit d); [|done].
    intros H. constructor; [by right | by eapply IH].
Qed.

(** The characters of a text that [int] accepts: blanks, digits, the
    underscore and the two signs. *)
Lemma int_ok_chars s n :
  Py.int s = Ok n ->
  Forall (fun c => Py.int_blank c = true \/ Py.is_ascii_digit c = true \/
                   c = "_"%char \/ c = "-"%char \/ c = "+"%char) (Py.chars s).
Proof.
  unfold Py.int, Py.strip. intros H.
  destruct (lstrip_chars s) as (pre & -> & Hpre).
  destruct (rstrip_chars (Py.lstrip s)) as (post & -> & Hpost).
  set (body := Py.chars (Py.rstrip (Py.lstrip s))) in *.
  assert (Hbody : Forall (fun c => Py.int_blank c = true \/ Py.is_ascii_digit c = true \/
                   c = "_"%char \/ c = "-"%char \/ c = "+"%char) body).
  { assert (Hds : forall ds vs, Py.int_digits false ds = Some vs ->
        Forall (fun c => Py.int_blank c = true \/ Py.is_ascii_digit c = true \/
                   c = "_"%char \/ c = "-"%char \/ c = "+"%char) ds).
    { intros ds vs Hd. eapply Forall_impl; [by eapply int_digits_chars|].
      intros c [?|?]; auto. }
    destruct body as [|c l]; [by constructor|].
    destruct (Ascii.eqb_spec c "-") as [->|Hm].
    { destruct l as [|d l']; [done|].
      destruct (Py.int_digits false (d :: l')) as [vs|] eqn:Hd; [|done].
      constructor; [auto | by eapply Hds]. }
    destruct (Ascii.eqb_spec c "+") as [->|Hp].
    { destruct l as [|d l']; [done|].
      destruct (Py.int_digits false (d :: l')) as [vs|] eqn:Hd; [|done].
      constructor; [auto 6 | by eapply Hds]. }
    destruct (Py.int_digits false (c :: l)) as [vs|] eqn:Hd; [|done].
    by eapply Hds. }
  apply Forall_app. split.
  - eapply Forall_impl; [exact Hpre|]. auto.
  - apply Forall_app. split; [exact Hbody|].
    eapply Forall_impl; [exact Hpost|]. auto.
Qed.

Lemma lower_r c :
  Py.lower_char c = "r"%char ->
  ~ (Py.int_blank c = true \/ Py.is_ascii_digit c = true \/
     c = "_"%char \/ c = "-"%char \/ c = "+"%char).
Proof.
  destruct c as [[] [] [] [] [] [] [] []]; vm_compute;
    intros H; try discriminate H;
    intros [?|[?|[?|[?|?]]]]; discriminate.
Qed.

(** A name that ends in ".rar", in any case of the letters, is no integer
    for [int]. *)
Lemma rar_not_int name :
  Py.endswith (Py.lower name) ".rar" = true -> Py.int name = Raise ValueError.
Proof.
  intros [pre Hpre]%endswith_split.
  destruct (Py.int name) as [n|e] eqn:Hint.
  - exfalso. apply int_ok_chars in Hint.
    assert (Hin : "r"%char ∈ map Py.lower_char (Py.chars name)).
    { rewrite <- chars_lower, Hpre, chars_app. apply elem_of_app. right.
      simpl. set_solver. }
    apply list_elem_of_fmap in Hin as (c & Hc & Hin).
    rewrite Forall_forall in Hint. apply (lower_r c); [done | by apply Hint].
  - f_equal. by eapply int_raises_value_error.
Qed.

End TkValues.



(** X15.  A double click on a row that is neither "dir" nor "up" does
    nothing.  On a "dir" or "up" row the worker posts exactly one message and
    never changes the handle.  The current path changes only to what PWD
    answers after a CWD that succeeded, and it stays changed when the listing
    that follows fails; a listing that is posted is the listing of the
    client as the worker leaves it. *)
Theorem double_click_outcome (self : FTPClient.Client)
    (cwd_reply : string -> option PyExc) (pwd_after : string -> result string)
    (name typ : string) :
  let '(self', msgs) :=
    App.on_tree_double_click self cwd_reply pwd_after (Some (name, typ)) in
  (typ <> "dir" -> typ <> "up" -> self' = self /\ msgs = []) /\
  (typ = "dir" \/ typ = "up" -> length msgs = 1%nat) /\
  FTPClient.ftp self' = FTPClient.ftp self /\
  (self' <> self ->
     exists path,
       path = (if String.eqb typ "up"
               then App.up_path (FTPClient.current_path self)
               else App.child_path (FTPClient.current_path self) name) /\
       cwd_reply path = None /\
       pwd_after path = Ok (FTPClient.current_path self')) /\
  (forall entries, msgs = [App.MsgListing entries] ->
     (FTPClient.listdir self' None).2 = Ok entries).
Proof.
  unfold App.on_tree_double_click. cbv zeta.
  rewrite click_path_convert, !tk_eq_convert by reflexivity.
  destruct (String.eqb_spec typ "dir") as [Hd|Hd];
    destruct (String.eqb_spec typ "up") as [Hu|Hu]; simpl orb; cbv iota.
  4: { repeat split; try done. by intros [?|?]. }
  1: { rewrite Hd in Hu. discriminate. }
  1: destruct (Py.int name) as [n|e0] eqn:Hint; [by repeat split|].
  all: unfold FTPClient.cwd;
    destruct (FTPClient.ftp self) as [c|] eqn:Hc;
      [|repeat split; try done; by rewrite Hc];
    destruct (cwd_reply _) as [e|] eqn:Hcwd;
      [repeat split; try done; by rewrite Hc|];
    destruct (pwd_after _) as [q|e] eqn:Hpwd;
      [|repeat split; try done; by rewrite Hc];
    destruct (FTPClient.listdir _ None) as [evs [entries|e]] eqn:Hl;
    repeat split; try done;
    try (intros _; eexists; split; [reflexivity|]; split; [exact Hcwd | exact Hpwd]);
    try (intros ? [= <-]; by rewrite Hl).
Qed.

Section Selection.

Lemma replace_char_gone old new s :
  new <> old -> Forall (fun a => a <> old) (Py.chars (Py.replace_char old new s)).
Proof.
  intros Hne. induction s as [|x s IH]; [by constructor|].
  simpl. destruct (Ascii.eqb_spec x old) as [->|Hx]; simpl; by constructor.
Qed.

Lemma child_path_tail cur name suffix :
  Py.replace_char "\" "/" suffix = suffix ->
  Py.endswith (Py.lower name) suffix = true ->
  Py.endswith (Py.lower (App.child_path cur name)) suffix = true.
Proof.
  intros Hsuf [p Hp]%endswith_split. unfold App.child_path.
  destruct (join_tail cur name) as [pre ->].
  rewrite lower_replace, lower_app, replace_char_app, Hp, replace_char_app, Hsuf.
  apply endswith_app, endswith_app, endswith_refl.
Qed.

End Selection.

(** X16.  [on_tree_select] raises only [AttributeError], and it does so
    exactly when the selected row has the type "file" and a name that the
    widget hands back as an integer; the remembered path and the button are
    then left as they were.  A "file" row whose name ends in ".rar", in any
    case of the letters, never raises.  When the call returns, the button is
    enabled exactly when the selected row has the type "file" and such a
    name (with no row selected it is disabled); the remembered path is empty
    exactly when the button is disabled, and when the button is enabled the
    path itself ends in ".rar" in any case of the letters and holds no
    backslash. *)
Theorem select_enables_rar (view : App.View) (current_path : string)
    (sel : option (string * string)) :
  let '(view', exc) := App.on_tree_select view current_path sel in
  (exc = Some AttributeError <->
     exists name n, sel = Some (name, "file") /\ Py.int name = Ok n) /\
  (exc <> None -> exc = Some AttributeError /\ view' = view) /\
  (forall name, sel = Some (name, "file") ->
     Py.endswith (Py.lower name) ".rar" = true -> exc = None) /\
  (exc = None ->
     (App.download_enabled view' = true <->
        exists name, sel = Some (name, "file") /\
                     Py.endswith (Py.lower name) ".rar" = true) /\
     (App.download_enabled view' = false <-> App.selected_remote view' = "") /\
     (App.download_enabled view' = true ->
        Py.endswith (Py.lower (App.selected_remote view')) ".rar" = true /\
        Forall (fun a => a <> "\"%char) (Py.chars (App.selected_remote view')))).
Proof.
  unfold App.on_tree_select. cbv zeta. destruct sel as [[name typ]|].
  2: { split; [split; [done | by intros (? & ? & ? & ?)]|].
       split; [done|]. split; [done|]. intros _.
       split; [split; [done | by intros (? & ? & ?)]|]. by split. }
  rewrite tk_eq_convert by reflexivity.
  destruct (String.eqb_spec typ "file") as [->|Hty].
  2: { split; [split; [done | intros (? & ? & [= _ ?] & _); done]|].
       split; [done|]. split; [done|]. intros _.
       split; [split; [done | intros (? & [= _ ?] & _); done]|]. by split. }
  unfold App.convert_stringval.
  destruct (Py.int name) as [n|e] eqn:Hint.
  { split; [split; [intros _; by exists name, n | done]|].
    split; [done|]. split; [|done].
    intros ? [= <-] Hrar. apply rar_not_int in Hrar. congruence. }
  destruct (Py.endswith (Py.lower name) ".rar") eqn:Hend.
  2: { split; [split; [done | intros (? & ? & [= <-] & ?); congruence]|].
       split; [done|]. split; [done|]. intros _.
       split; [split; [done | intros (? & [= <-] & ?); congruence]|]. by split. }
  pose proof (child_path_tail current_path name ".rar" eq_refl Hend) as Htail.
  split; [split; [done | intros (? & ? & [= <-] & ?); congruence]|].
  split; [done|]. split; [done|]. intros _. simpl.
  split; [split; [intros _; by exists name | done]|].
  split.
  - split; [done|]. intros Hp. rewrite Hp in Htail. done.
  - intros _. split; [exact Htail|]. by apply replace_char_gone.
Qed.
